(** * CRSF ground-station control core (Raspberry/main.cpp)

    A shallow embedding of the channel store, the joystick axis mapping,
    the text command parser, the telemetry snapshot cycle and the
    scheduler tick of [main], followed by the properties of the
    specification that are settled on it.

    Machine integers are carried as [Z] with their wrap-around written
    out; [std::string] is [string]; the global array [currentChannels]
    is a [list Z] of length 16 that is threaded through every function
    that the source lets write to it. *)

From Stdlib Require Import ZArith Lia Bool Ascii String List.
From Stdlib Require Import SpecFloat.
From Stdlib Require Import Decimal DecimalString DecimalPos DecimalZ.
From stdpp Require Import base list.

Local Open Scope Z_scope.

(** ** Fixed-width integers *)

(** Value of a 32-bit unsigned object after storing [z] in it. *)
Definition to_uint32 (z : Z) : Z := z mod 2 ^ 32.

(** Value of a 32-bit signed object after storing [z] in it. *)
Definition to_int32 (z : Z) : Z := (z + 2 ^ 31) mod 2 ^ 32 - 2 ^ 31.

(** Value of an [int16_t] object after storing [z] in it (the implicit
    conversion of an [int] argument to an [int16_t] parameter). *)
Definition to_int16 (z : Z) : Z := (z + 2 ^ 15) mod 2 ^ 16 - 2 ^ 15.

Definition int16_range (z : Z) : Prop := -32768 <= z <= 32767.
Definition uint32_range (z : Z) : Prop := 0 <= z < 2 ^ 32.

(** ** namespace Constants *)

Module Constants.
Definition CRSF_SEND_PERIOD_MS : Z := 10.
Definition TELEMETRY_UPDATE_MS : Z := 20.
Definition CHANNEL_MIN : Z := 1000.
Definition CHANNEL_MAX : Z := 2000.
Definition CHANNEL_COUNT : Z := 16.
Definition JOYSTICK_AXIS_MIN : Z := -32768.
Definition JOYSTICK_AXIS_MAX : Z := 32767.
(** [JOYSTICK_SCALE_FACTOR] is the float [500.0f]; its only use is
    under [static_cast<int32_t>], which yields the integer 500. *)
Definition JOYSTICK_SCALE_FACTOR : Z := 500.
Definition JOYSTICK_DEADZONE : Z := 100.
Definition DEFAULT_CHANNEL_VALUE : Z := 1500.
Definition DEFAULT_THROTTLE_VALUE : Z := 1000.
End Constants.

(** [getWorkMode] returns a constant. *)
Definition getWorkMode : string := "manual"%string.

(** ** The channel store *)

(** Static initialiser of [currentChannels]. *)
Definition currentChannels_init : list Z :=
  replicate (Z.to_nat Constants.CHANNEL_COUNT) Constants.DEFAULT_CHANNEL_VALUE.

(** [safeSetChannel(channel, value)]; [channel] is an [unsigned int],
    [value] an [int].  The mutex only serialises the single write. *)
Definition safeSetChannel (channel value : Z) (chans : list Z) : list Z :=
  if (1 <=? channel) && (channel <=? Constants.CHANNEL_COUNT)
     && (Constants.CHANNEL_MIN <=? value) && (value <=? Constants.CHANNEL_MAX)
  then <[Z.to_nat (channel - 1) := value]> chans
  else chans.

(** ** Axis mapping *)

(** [axisToUs(int16_t value)].  C++ [/] on integers truncates toward
    zero, which is [Z.quot].  The product is formed in [int32_t]. *)
Definition axisToUs (value : Z) : Z :=
  if (value <? Constants.JOYSTICK_DEADZONE) && (value >? - Constants.JOYSTICK_DEADZONE)
  then 1500
  else
    let scaled := to_int32 (value * Constants.JOYSTICK_SCALE_FACTOR) in
    let result := 1500 + Z.quot scaled 32768 in
    if result <? Constants.CHANNEL_MIN then Constants.CHANNEL_MIN
    else if result >? Constants.CHANNEL_MAX then Constants.CHANNEL_MAX
    else result.

(** The reference mapping, following the words of the specification:
    1500 inside the dead-zone, otherwise [1500 + (v * 500) / 32768] with
    truncating division, clamped into [1000,2000]. *)
Definition mapAxis_spec (v : Z) : Z :=
  if Z.abs v <? 100 then 1500
  else Z.max 1000 (Z.min 2000 (1500 + Z.quot (v * 500) 32768)).

(** The call sites of the inverted axes pass [-axes[k]]: the [int16_t]
    sample is promoted to [int], negated, and converted back to the
    [int16_t] parameter of [axisToUs]. *)
Definition axisToUs_inverted (raw : Z) : Z := axisToUs (to_int16 (- raw)).

(** Samples delivered by [js_get_axis] for the four mapped axes:
    [None] when the call returned false. *)
Record JoystickAxes := {
  axis0 : option Z;
  axis1 : option Z;
  axis2 : option Z;
  axis3 : option Z
}.

Definition on_axis (a : option Z) (f : Z -> list Z -> list Z) (chans : list Z) : list Z :=
  match a with
  | Some v => f v chans
  | None => chans
  end.

(** The four guarded [safeSetChannel] calls of the joystick branch, in
    source order: yaw, throttle (inverted), roll, pitch (inverted). *)
Definition mapJoystick (ax : JoystickAxes) (chans : list Z) : list Z :=
  let c1 := on_axis (axis0 ax) (fun v => safeSetChannel 4 (axisToUs v)) chans in
  let c2 := on_axis (axis1 ax) (fun v => safeSetChannel 3 (axisToUs_inverted v)) c1 in
  let c3 := on_axis (axis2 ax) (fun v => safeSetChannel 1 (axisToUs v)) c2 in
  on_axis (axis3 ax) (fun v => safeSetChannel 2 (axisToUs_inverted v)) c3.

(** ** Character and string primitives of the C++ library *)

Local Open Scope string_scope.
Local Open Scope Z_scope.

(** [isspace] in the classic locale: space, \t, \n, \v, \f, \r. *)
Definition isspace (c : ascii) : bool :=
  let n := nat_of_ascii c in
  Nat.eqb n 32 || (Nat.leb 9 n && Nat.leb n 13).

Definition digit_of (c : ascii) : option Z :=
  let n := nat_of_ascii c in
  if Nat.leb 48 n && Nat.leb n 57 then Some (Z.of_nat (n - 48)) else None.

Fixpoint skip_ws (s : string) : string :=
  match s with
  | String c r => if isspace c then skip_ws r else s
  | EmptyString => s
  end.

(** The words that successive [iss >> token] extractions deliver:
    maximal runs of non-whitespace characters, in order. *)
Fixpoint tokens (s : string) : list string :=
  match s with
  | EmptyString => []
  | String c r =>
      if isspace c then tokens r
      else match r with
           | EmptyString => [String c EmptyString]
           | String c' _ =>
               if isspace c' then String c EmptyString :: tokens r
               else match tokens r with
                    | t :: ts => String c t :: ts
                    | [] => [String c EmptyString]
                    end
           end
  end.

(** The first whitespace-delimited token of a line, if it has one. *)
Definition first_token (s : string) : option string := head (tokens s).

(** [str.compare(0, prefix.length(), prefix) == 0]. *)
Definition startsWith (str pre : string) : bool :=
  String.eqb (substring 0 (String.length pre) str) pre.

(** [token.find(ch)]: position of the first occurrence, [None] for
    [npos]. *)
Fixpoint find_char (ch : ascii) (s : string) : option nat :=
  match s with
  | EmptyString => None
  | String c r =>
      if Ascii.eqb c ch then Some 0%nat
      else match find_char ch r with
           | Some k => Some (S k)
           | None => None
           end
  end.

(** [s.substr(pos)], for [pos <= s.size()]. *)
Definition substr_from (pos : nat) (s : string) : string :=
  substring pos (String.length s - pos) s.

(** Leading decimal digits of [s]: their value once at least one was
    read, and the unread rest. *)
Fixpoint read_digits (s : string) (acc : option Z) : option Z * string :=
  match s with
  | EmptyString => (acc, s)
  | String c r =>
      match digit_of c with
      | Some d => read_digits r (Some (10 * default 0 acc + d))
      | None => (acc, s)
      end
  end.

(** Optional sign, then digits: the subject sequence of [strtol],
    [strtoul] and of the [%d] and [%u] conversions.  [None] when no
    digit follows. *)
Definition read_signed (s : string) : option (Z * string) :=
  let '(neg, body) :=
    match s with
    | String "-" r => (true, r)
    | String "+" r => (false, r)
    | _ => (false, s)
    end in
  match read_digits body None with
  | (Some n, rest) => Some (if neg : bool then - n else n, rest)
  | (None, _) => None
  end.

(** [std::stoi(s)]: [None] stands for a thrown [std::invalid_argument]
    (no digits) or [std::out_of_range] (value does not fit an [int]).
    Characters after the number are ignored. *)
Definition stoi (s : string) : option Z :=
  match read_signed (skip_ws s) with
  | Some (v, _) =>
      if (- 2 ^ 31 <=? v) && (v <=? 2 ^ 31 - 1) then Some v else None
  | None => None
  end.

(** Matching the ordinary characters of a [scanf] format. *)
Fixpoint match_literal (lit s : string) : option string :=
  match lit, s with
  | EmptyString, _ => Some s
  | String a lit', String b s' =>
      if Ascii.eqb a b then match_literal lit' s' else None
  | String _ _, EmptyString => None
  end.

(** [sscanf(s, "setChannel %u %d", &ch, &value) == 2]: [Some (ch, value)]
    exactly when both conversions succeed.  White space in the format
    and before a conversion matches any amount of white space, none
    included.  A value too large for its 32-bit object is stored reduced
    to the width of the object. *)
Definition sscanf_setChannel (s : string) : option (Z * Z) :=
  match match_literal "setChannel" s with
  | None => None
  | Some s1 =>
      match read_signed (skip_ws s1) with
      | None => None
      | Some (u, s2) =>
          match read_signed (skip_ws s2) with
          | None => None
          | Some (d, _) => Some (to_uint32 u, to_int32 d)
          end
      end
  end.

(** [std::getline] over the whole file: the lines between newline
    characters; a final newline opens no further line. *)
Fixpoint getlines (s : string) : list string :=
  match s with
  | EmptyString => []
  | String c r =>
      if Ascii.eqb c "010" then EmptyString :: getlines r
      else match getlines r with
           | l :: ls => String c l :: ls
           | [] => [String c EmptyString]
           end
  end.

(** ** Command parsing *)

(** Body of the [while (iss >> token)] loop of the [setChannels]
    branch for one token.  A throwing [stoi] leaves the loop body
    through [catch (...)], which continues with the next token. *)
Definition setChannels_pair (token : string) (chans : list Z) : list Z :=
  match find_char "=" token with
  | None => chans
  | Some pos =>
      match stoi (substring 0 pos token) with
      | None => chans
      | Some c =>
          let ch := to_uint32 c in
          match stoi (substr_from (pos + 1) token) with
          | None => chans
          | Some value => safeSetChannel ch value chans
          end
      end
  end.

(** [parseCommand(cmd)]: the new contents of [currentChannels] and the
    returned flag.  The log line of the [setMode] branch is not part of
    the state. *)
Definition parseCommand (cmd : string) (chans : list Z) : list Z * bool :=
  match cmd with
  | EmptyString => (chans, false)
  | String c0 _ =>
      if Ascii.eqb c0 "#" then (chans, false)
      else if startsWith cmd "setChannels" then
        (fold_left (fun st tok => setChannels_pair tok st) (tail (tokens cmd)) chans, true)
      else if startsWith cmd "setChannel" then
        match sscanf_setChannel cmd with
        | Some (ch, value) => (safeSetChannel ch value chans, true)
        | None => (chans, true)
        end
      else if String.eqb cmd "sendChannels" then (chans, true)
      else if startsWith cmd "setMode" then (chans, true)
      else (chans, false)
  end.

(** ** The scheduler loop of [main] *)

(** The part of the state of [main] that the loop carries from one
    iteration to the next, with the global channel array. *)
Record MainState := {
  lastSendMs : Z;
  needToSendChannels : bool;
  currentChannels : list Z
}.

(** What does not change once the loop is entered: the compile-time
    switch [USE_CRSF_SEND] of config.h and the result of [js_open]. *)
Record LoopConfig := {
  USE_CRSF_SEND : bool;
  joystickAvailable : bool
}.

(** What one iteration reads from outside: [rpi_millis()], the contents
    of the command file ([None] when it cannot be opened) and the axis
    samples. *)
Record TickInput := {
  currentMillis : Z;
  cmdFile : option string;
  joystick : JoystickAxes
}.

(** The values handed to [crsfSetChannel] for channels 1 to 16 before
    [crsfSendChannels]. *)
Definition Emission := list Z.

(** The store as [main] leaves it before entering the loop. *)
Definition boot_chans : list Z :=
  <[2%nat := Constants.DEFAULT_THROTTLE_VALUE]> currentChannels_init.

Definition boot_state : MainState :=
  {| lastSendMs := 0; needToSendChannels := false; currentChannels := boot_chans |}.

(** One [getline] round: parse the line, raise the flag on success. *)
Definition command_step (st : list Z * bool) (line : string) : list Z * bool :=
  let '(chans, need) := st in
  let '(chans', ok) := parseCommand line chans in
  (chans', if ok then true else need).

Definition drain_commands (file : option string) (st : list Z * bool) : list Z * bool :=
  match file with
  | None => st
  | Some content => fold_left command_step (getlines content) st
  end.

(** One iteration of [while (true)] with the work mode as an argument.
    Returns the next state and the emission of this iteration, if any. *)
Definition tick_in_mode (mode : string) (cfg : LoopConfig) (inp : TickInput)
    (s : MainState) : MainState * option Emission :=
  let '(ch1, need1) :=
    drain_commands (cmdFile inp) (currentChannels s, needToSendChannels s) in
  if USE_CRSF_SEND cfg then
    let '(ch2, need2) :=
      if String.eqb mode "joystick" && joystickAvailable cfg
      then (mapJoystick (joystick inp) ch1, true)
      else (ch1, need1) in
    let sinceLast := to_uint32 (currentMillis inp - lastSendMs s) in
    if Constants.CRSF_SEND_PERIOD_MS <=? sinceLast then
      ({| lastSendMs := currentMillis inp; needToSendChannels := false;
          currentChannels := ch2 |}, Some ch2)
    else if need2 then
      if 2 <=? sinceLast then
        ({| lastSendMs := currentMillis inp; needToSendChannels := false;
            currentChannels := ch2 |}, Some ch2)
      else
        ({| lastSendMs := lastSendMs s; needToSendChannels := need2;
            currentChannels := ch2 |}, None)
    else
      ({| lastSendMs := lastSendMs s; needToSendChannels := need2;
          currentChannels := ch2 |}, None)
  else
    ({| lastSendMs := lastSendMs s; needToSendChannels := need1;
        currentChannels := ch1 |}, None).

(** The iteration as compiled: the mode is what [getWorkMode] returns. *)
Definition tick : LoopConfig -> TickInput -> MainState -> MainState * option Emission :=
  tick_in_mode getWorkMode.

(** Successive iterations; the trace records, per iteration, whether
    and what it emitted. *)
Fixpoint run (cfg : LoopConfig) (ins : list TickInput) (s : MainState)
    : MainState * list (option Emission) :=
  match ins with
  | [] => (s, [])
  | inp :: rest =>
      let '(s1, e) := tick cfg inp s in
      let '(s2, es) := run cfg rest s1 in
      (s2, e :: es)
  end.

(** States of [main] at the top of the loop, for any work mode. *)
Inductive reachable (cfg : LoopConfig) : MainState -> Prop :=
| reach_boot : reachable cfg boot_state
| reach_tick mode inp s :
    reachable cfg s -> reachable cfg (fst (tick_in_mode mode cfg inp s)).

Definition in_range (v : Z) : Prop :=
  Constants.CHANNEL_MIN <= v <= Constants.CHANNEL_MAX.

Definition valid_store (chans : list Z) : Prop :=
  length chans = Z.to_nat Constants.CHANNEL_COUNT /\ Forall in_range chans.

(** The flag [parseCommand] returns for a line; it does not depend on
    the store (lemma [parseCommand_snd]). *)
Definition recognized (line : string) : bool := snd (parseCommand line []).

(** An iteration input that carries no recognized command. *)
Definition no_commands (inp : TickInput) : bool :=
  match cmdFile inp with
  | None => true
  | Some content => forallb (fun line => negb (recognized line)) (getlines content)
  end.

(** An iteration input whose command file holds a recognized command. *)
Definition has_command (inp : TickInput) : bool :=
  match cmdFile inp with
  | None => false
  | Some content => existsb recognized (getlines content)
  end.

(** No white-space character occurs in [s]. *)
Fixpoint no_space (s : string) : bool :=
  match s with
  | EmptyString => true
  | String c r => negb (isspace c) && no_space r
  end.

(** [pre] is an initial segment of [s]. *)
Fixpoint is_prefix (pre s : string) : bool :=
  match pre with
  | EmptyString => true
  | String a pre' =>
      match s with
      | EmptyString => false
      | String b s' => Ascii.eqb b a && is_prefix pre' s'
      end
  end.

(** ** The telemetry writer *)

Module Telemetry.

(** C++ [double] and [float] values, as IEEE 754 data. *)
Definition double := spec_float.
Definition float := spec_float.

Definition double_of_int (z : Z) : double := binary_normalize 53 1024 z 0 false.
Definition double_div : double -> double -> double := SFdiv 53 1024.

(** [crsf_sensor_gps_t] is declared in the CRSF protocol headers; the
    worker reads these four integer fields of it. *)
Record crsf_sensor_gps_t := {
  gps_latitude : Z;
  gps_longitude : Z;
  gps_groundspeed : Z;
  gps_altitude : Z
}.

(** What the calls on the [CrsfSerial] object return during one
    cycle, each converted to the type of the field it is stored in. *)
Record CrsfReadings := {
  isLinkUp : bool;
  _lastReceive : Z;
  getChannel : Z -> Z;
  getGpsSensor : option crsf_sensor_gps_t;
  getBatteryVoltage : float;
  getBatteryCurrent : float;
  getBatteryCapacity : float;
  getBatteryRemaining : Z;
  getAttitudeRoll : float;
  getAttitudePitch : float;
  getAttitudeYaw : float;
  getRawAttitudeRoll : Z;
  getRawAttitudePitch : Z;
  getRawAttitudeYaw : Z
}.

Record SharedTelemetryData := {
  linkUp : bool;
  lastReceive : Z;
  channels : list Z;
  latitude : double;
  longitude : double;
  altitude : double;
  speed : double;
  voltage : float;
  current : float;
  capacity : float;
  remaining : Z;
  roll : float;
  pitch : float;
  yaw : float;
  rollRaw : Z;
  pitchRaw : Z;
  yawRaw : Z;
  timestamp : Z
}.

(** The four GPS fields after the [if (gps)] statement. *)
Definition gps_fields (gps : option crsf_sensor_gps_t) (shared : SharedTelemetryData)
    : double * double * double * double :=
  match gps with
  | Some g =>
      (double_div (double_of_int (gps_latitude g)) (double_of_int 10000000),
       double_div (double_of_int (gps_longitude g)) (double_of_int 10000000),
       double_of_int (gps_altitude g - 1000),
       double_div (double_of_int (gps_groundspeed g)) (double_of_int 10))
  | None => (latitude shared, longitude shared, altitude shared, speed shared)
  end.

(** The assignments to [shared] of one cycle; [now_ms] is the
    millisecond count of [now.time_since_epoch()]. *)
Definition fill (now_ms : Z) (crsf : CrsfReadings) (shared : SharedTelemetryData)
    : SharedTelemetryData :=
  let '(lat, lon, alt, spd) := gps_fields (getGpsSensor crsf) shared in
  {| linkUp := isLinkUp crsf;
     lastReceive := _lastReceive crsf;
     timestamp := now_ms;
     channels := map (fun i => getChannel crsf (Z.of_nat i + 1))
                     (seq 0 (Z.to_nat Constants.CHANNEL_COUNT));
     latitude := lat; longitude := lon; altitude := alt; speed := spd;
     voltage := getBatteryVoltage crsf;
     current := getBatteryCurrent crsf;
     capacity := getBatteryCapacity crsf;
     remaining := getBatteryRemaining crsf;
     roll := getAttitudeRoll crsf;
     pitch := getAttitudePitch crsf;
     yaw := getAttitudeYaw crsf;
     rollRaw := getRawAttitudeRoll crsf;
     pitchRaw := getRawAttitudePitch crsf;
     yawRaw := getRawAttitudeYaw crsf |}.

(** [duration_cast<milliseconds>] of a count of clock ticks
    (nanoseconds for [steady_clock]); the cast truncates. *)
Definition to_ms (ticks : Z) : Z := Z.quot ticks 1000000.

(** State of the worker across iterations: the time point
    [lastUpdate] and the local [shared], which is declared without an
    initialiser, so that its first value is whatever the caller of
    the model supplies. *)
Record WorkerState := {
  lastUpdate : Z;
  shared : SharedTelemetryData
}.

(** Outcome of one iteration of the worker loop. *)
Inductive Outcome :=
| Sleep (ms : Z)
| Cycle (published : option SharedTelemetryData).

(** One iteration at time point [now]: too early, sleep for the
    remainder and change nothing; otherwise fill [shared] and write
    it out when the file opens. *)
Definition iteration (now : Z) (crsf : CrsfReadings) (file_opens : bool)
    (w : WorkerState) : WorkerState * Outcome :=
  let elapsed := to_ms (now - lastUpdate w) in
  if elapsed <? Constants.TELEMETRY_UPDATE_MS then
    (w, Sleep (Constants.TELEMETRY_UPDATE_MS - elapsed))
  else
    let rec := fill (to_ms now) crsf (shared w) in
    ({| lastUpdate := now; shared := rec |},
     Cycle (if file_opens then Some rec else None)).

End Telemetry.

(** ** The text of well-formed input, for stating round trips *)

(** Decimal rendering of an integer: digits, with a leading minus sign
    for a negative number. *)
Definition print_int (z : Z) : string := NilEmpty.string_of_int (Z.to_int z).

(** Value of a sequence of decimal digits read after [acc]. *)
Fixpoint uint_value (u : uint) (acc : Z) : Z :=
  match u with
  | Nil => acc
  | D0 u' => uint_value u' (10 * acc + 0)
  | D1 u' => uint_value u' (10 * acc + 1)
  | D2 u' => uint_value u' (10 * acc + 2)
  | D3 u' => uint_value u' (10 * acc + 3)
  | D4 u' => uint_value u' (10 * acc + 4)
  | D5 u' => uint_value u' (10 * acc + 5)
  | D6 u' => uint_value u' (10 * acc + 6)
  | D7 u' => uint_value u' (10 * acc + 7)
  | D8 u' => uint_value u' (10 * acc + 8)
  | D9 u' => uint_value u' (10 * acc + 9)
  end.

(** The text begins with a decimal digit. *)
Definition digit_head (s : string) : bool :=
  match s with
  | String c _ => match digit_of c with Some _ => true | None => false end
  | EmptyString => false
  end.

(** A pair as it is written on a [setChannels] line. *)
Definition pair_token (p : Z * Z) : string :=
  String.append (print_int (fst p)) (String "=" (print_int (snd p))).

(** The pairs of a [setChannels] line, each after one blank. *)
Fixpoint pairs_text (ps : list (Z * Z)) : string :=
  match ps with
  | [] => EmptyString
  | p :: rest => String " " (String.append (pair_token p) (pairs_text rest))
  end.

(** The writes a list of pairs stands for, in order. *)
Definition apply_pairs (ps : list (Z * Z)) (chans : list Z) : list Z :=
  fold_left (fun st p => safeSetChannel (fst p) (snd p) st) ps chans.

Definition no_newline (s : string) : bool :=
  match find_char "010" s with
  | None => true
  | Some _ => false
  end.

(** A file made of the given lines, each closed by a newline. *)
Fixpoint unlines (ls : list string) : string :=
  match ls with
  | [] => EmptyString
  | l :: rest => String.append l (String "010" (unlines rest))
  end.

(** The characters of a rendered number: digits and the minus sign. *)
Definition number_char (c : ascii) : bool :=
  match digit_of c with Some _ => true | None => Ascii.eqb c "-" end.

Fixpoint all_chars (f : ascii -> bool) (s : string) : bool :=
  match s with
  | EmptyString => true
  | String c r => f c && all_chars f r
  end.

(** The text is empty or begins with white space. *)
Definition space_head (s : string) : bool :=
  match s with
  | String c _ => isspace c
  | EmptyString => true
  end.

(** The commands of a list of lines, applied in order. *)
Definition apply_lines (ls : list string) (chans : list Z) : list Z :=
  fold_left (fun c line => fst (parseCommand line c)) ls chans.

(** [currentMillis - lastSendMs], as the [uint32_t] subtraction of the
    loop computes it. *)
Definition since_last (inp : TickInput) (s : MainState) : Z :=
  to_uint32 (currentMillis inp - lastSendMs s).

(** ** Sample configurations and inputs *)

Definition cfg_send : LoopConfig :=
  {| USE_CRSF_SEND := true; joystickAvailable := false |}.

Definition cfg_joystick : LoopConfig :=
  {| USE_CRSF_SEND := true; joystickAvailable := true |}.

Definition no_axes : JoystickAxes :=
  {| axis0 := None; axis1 := None; axis2 := None; axis3 := None |}.

(** An iteration at time [t] that finds no command file. *)
Definition idle_at (t : Z) : TickInput :=
  {| currentMillis := t; cmdFile := None; joystick := no_axes |}.

(** An iteration at time [t] that finds the command file [content]. *)
Definition command_at (t : Z) (content : string) : TickInput :=
  {| currentMillis := t; cmdFile := Some content; joystick := no_axes |}.

(** The state right after an emission at time [t]. *)
Definition sent_at (t : Z) (chans : list Z) : MainState :=
  {| lastSendMs := t; needToSendChannels := false; currentChannels := chans |}.

(** [n] iterations without command file, one millisecond apart, the
    first one millisecond after [t]. *)
Definition ticks_from (t : Z) (n : nat) : list TickInput :=
  map (fun k => idle_at (to_uint32 (t + (Z.of_nat k + 1)))) (seq 0 n).

(** An iteration in joystick mode that also finds a command file. *)
Definition joystick_sample : TickInput :=
  {| currentMillis := 5000;
     cmdFile := Some "setChannels 1=1200 7=2500";
     joystick := {| axis0 := Some 150; axis1 := Some (-32768);
                    axis2 := None; axis3 := Some 32767 |} |}.

(** Only the throttle axis, respectively only the pitch axis, delivers
    a sample. *)
Definition throttle_only (raw : Z) : JoystickAxes :=
  {| axis0 := None; axis1 := Some raw; axis2 := None; axis3 := None |}.

Definition pitch_only (raw : Z) : JoystickAxes :=
  {| axis0 := None; axis1 := None; axis2 := None; axis3 := Some raw |}.

(** Readings of a transport without GPS fix, and a record as a previous
    cycle could have left it. *)
Definition readings_no_gps : Telemetry.CrsfReadings :=
  {| Telemetry.isLinkUp := true;
     Telemetry._lastReceive := 123456;
     Telemetry.getChannel := fun i => 1500 + i;
     Telemetry.getGpsSensor := None;
     Telemetry.getBatteryVoltage := S754_finite false 5 (-1);
     Telemetry.getBatteryCurrent := S754_zero false;
     Telemetry.getBatteryCapacity := S754_zero false;
     Telemetry.getBatteryRemaining := 87;
     Telemetry.getAttitudeRoll := S754_zero false;
     Telemetry.getAttitudePitch := S754_zero true;
     Telemetry.getAttitudeYaw := S754_zero false;
     Telemetry.getRawAttitudeRoll := 12;
     Telemetry.getRawAttitudePitch := -7;
     Telemetry.getRawAttitudeYaw := 0 |}.

Definition previous_record : Telemetry.SharedTelemetryData :=
  {| Telemetry.linkUp := false;
     Telemetry.lastReceive := 0;
     Telemetry.channels := [];
     Telemetry.latitude := Telemetry.double_of_int 55;
     Telemetry.longitude := Telemetry.double_of_int 37;
     Telemetry.altitude := Telemetry.double_of_int 120;
     Telemetry.speed := Telemetry.double_of_int 3;
     Telemetry.voltage := S754_zero false;
     Telemetry.current := S754_zero false;
     Telemetry.capacity := S754_zero false;
     Telemetry.remaining := 0;
     Telemetry.roll := S754_zero false;
     Telemetry.pitch := S754_zero false;
     Telemetry.yaw := S754_zero false;
     Telemetry.rollRaw := 0;
     Telemetry.pitchRaw := 0;
     Telemetry.yawRaw := 0;
     Telemetry.timestamp := 0 |}.

(** The same iteration input with no axis sample delivered. *)
Definition strip_joystick (inp : TickInput) : TickInput :=
  {| currentMillis := currentMillis inp; cmdFile := cmdFile inp; joystick := no_axes |}.

(** A command file of three lines. *)
Definition sample_lines : list string :=
  ["setChannel 5 1700"; "# trim"; "setChannels 5=1800 6=1100"].

(** Readings of a transport with a GPS fix. *)
Definition readings_with_gps : Telemetry.CrsfReadings :=
  {| Telemetry.isLinkUp := true;
     Telemetry._lastReceive := 123456;
     Telemetry.getChannel := fun i => 1500 + i;
     Telemetry.getGpsSensor :=
       Some {| Telemetry.gps_latitude := 557500000;
               Telemetry.gps_longitude := 376000000;
               Telemetry.gps_groundspeed := 125;
               Telemetry.gps_altitude := 1150 |};
     Telemetry.getBatteryVoltage := S754_finite false 5 (-1);
     Telemetry.getBatteryCurrent := S754_zero false;
     Telemetry.getBatteryCapacity := S754_zero false;
     Telemetry.getBatteryRemaining := 87;
     Telemetry.getAttitudeRoll := S754_zero false;
     Telemetry.getAttitudePitch := S754_zero true;
     Telemetry.getAttitudeYaw := S754_zero false;
     Telemetry.getRawAttitudeRoll := 12;
     Telemetry.getRawAttitudePitch := -7;
     Telemetry.getRawAttitudeYaw := 0 |}.

(** * Properties *)

(** ** Fixed-width conversions *)

Lemma to_int32_small z : - 2 ^ 31 <= z < 2 ^ 31 -> to_int32 z = z.
Proof.
  intros H. unfold to_int32.
  rewrite Z.mod_small by lia. lia.
Qed.

Lemma to_int16_small z : int16_range z -> to_int16 z = z.
Proof.
  unfold int16_range, to_int16. intros H.
  rewrite Z.mod_small by lia. lia.
Qed.

Lemma to_uint32_range z : uint32_range (to_uint32 z).
Proof. unfold uint32_range, to_uint32. apply Z.mod_pos_bound. lia. Qed.

Lemma to_uint32_shift t k :
  0 <= k < 2 ^ 32 -> to_uint32 (to_uint32 (t + k) - t) = k.
Proof.
  intros Hk. unfold to_uint32.
  rewrite Zminus_mod_idemp_l.
  replace (t + k - t) with k by lia.
  apply Z.mod_small. lia.
Qed.

(** ** The axis mapping *)

Section AxisMapping.

Variable v : Z.
Hypothesis Hv : int16_range v.

Lemma scaled_no_overflow : to_int32 (v * Constants.JOYSTICK_SCALE_FACTOR) = v * 500.
Proof.
  unfold Constants.JOYSTICK_SCALE_FACTOR.
  apply to_int32_small. unfold int16_range in Hv. lia.
Qed.

Lemma scaled_quot_bounds : - 500 <= Z.quot (v * 500) 32768 <= 499.
Proof.
  unfold int16_range in Hv. split.
  - change (- 500) with (Z.quot (- 32768 * 500) 32768).
    apply Z.quot_le_mono; lia.
  - change 499 with (Z.quot (32767 * 500) 32768).
    apply Z.quot_le_mono; lia.
Qed.

(** Outside the dead-zone the clamp never fires on a 16-bit sample. *)
Lemma axisToUs_outside :
  100 <= Z.abs v -> axisToUs v = 1500 + Z.quot (v * 500) 32768.
Proof.
  intros Habs. unfold axisToUs.
  unfold Constants.JOYSTICK_DEADZONE, Constants.CHANNEL_MIN, Constants.CHANNEL_MAX.
  rewrite scaled_no_overflow.
  pose proof scaled_quot_bounds as Hq.
  destruct (v <? 100) eqn:E1; destruct (v >? - (100)) eqn:E2; cbn [andb];
    try (exfalso; lia).
  all: destruct (1500 + Z.quot (v * 500) 32768 <? 1000) eqn:E3; try lia.
  all: destruct (1500 + Z.quot (v * 500) 32768 >? 2000) eqn:E4; lia.
Qed.

Lemma axisToUs_deadzone : Z.abs v < 100 -> axisToUs v = 1500.
Proof.
  intros Habs. unfold axisToUs, Constants.JOYSTICK_DEADZONE.
  destruct (v <? 100) eqn:E1; destruct (v >? - (100)) eqn:E2; cbn [andb];
    try reflexivity; exfalso; lia.
Qed.

End AxisMapping.

(** C3: on every 16-bit sample, [axisToUs] is the reference mapping of
    the specification (1500 in the dead-zone, otherwise the truncated
    quotient added to 1500 and clamped), and its result lies in
    [1000,2000]. *)
Theorem axisToUs_refines_spec (v : Z) :
  int16_range v ->
  axisToUs v = mapAxis_spec v /\ 1000 <= axisToUs v <= 2000.
Proof.
  intros Hv. unfold mapAxis_spec.
  pose proof (scaled_quot_bounds v Hv) as Hq.
  destruct (Z.abs v <? 100) eqn:E.
  - rewrite axisToUs_deadzone by lia. lia.
  - rewrite axisToUs_outside by (assumption || lia). lia.
Qed.

Lemma axisToUs_refines_spec_witness :
  int16_range 20000 /\ axisToUs 20000 = mapAxis_spec 20000 /\ 1000 <= axisToUs 20000 <= 2000.
Proof.
  assert (H : int16_range 20000) by (unfold int16_range; lia).
  split; [exact H | exact (axisToUs_refines_spec 20000 H)].
Defined.

(** C8: outside the dead-zone the mapping is monotonic non-decreasing
    on 16-bit samples. *)
Theorem axisToUs_monotone (v1 v2 : Z) :
  int16_range v1 -> int16_range v2 ->
  100 <= Z.abs v1 -> 100 <= Z.abs v2 ->
  v1 <= v2 ->
  axisToUs v1 <= axisToUs v2.
Proof.
  intros H1 H2 A1 A2 Hle.
  rewrite (axisToUs_outside v1 H1 A1), (axisToUs_outside v2 H2 A2).
  apply Z.add_le_mono_l.
  apply Z.quot_le_mono; lia.
Qed.

Lemma axisToUs_monotone_witness :
  int16_range (-20000) /\ int16_range 150 /\
  100 <= Z.abs (-20000) /\ 100 <= Z.abs 150 /\ -20000 <= 150 /\
  axisToUs (-20000) <= axisToUs 150.
Proof.
  assert (H1 : int16_range (-20000)) by (unfold int16_range; lia).
  assert (H2 : int16_range 150) by (unfold int16_range; lia).
  assert (A1 : 100 <= Z.abs (-20000)) by (simpl; lia).
  assert (A2 : 100 <= Z.abs 150) by (simpl; lia).
  assert (Hle : -20000 <= 150) by lia.
  refine (conj H1 (conj H2 (conj A1 (conj A2 (conj Hle _))))).
  exact (axisToUs_monotone (-20000) 150 H1 H2 A1 A2 Hle).
Defined.

(** ** The channel store *)

Lemma valid_store_length chans : valid_store chans -> length chans = 16%nat.
Proof. intros [H _]. exact H. Qed.

Lemma currentChannels_init_valid : valid_store currentChannels_init.
Proof.
  split; [reflexivity |].
  unfold currentChannels_init. apply Forall_replicate.
  unfold in_range, Constants.DEFAULT_CHANNEL_VALUE, Constants.CHANNEL_MIN,
    Constants.CHANNEL_MAX. lia.
Qed.

(** The guard of [safeSetChannel] as a proposition. *)
Lemma safeSetChannel_guard channel value :
  (1 <=? channel) && (channel <=? Constants.CHANNEL_COUNT)
    && (Constants.CHANNEL_MIN <=? value) && (value <=? Constants.CHANNEL_MAX) = true
  <-> (1 <= channel <= 16 /\ in_range value).
Proof.
  unfold in_range, Constants.CHANNEL_COUNT, Constants.CHANNEL_MIN, Constants.CHANNEL_MAX.
  rewrite !andb_true_iff, !Z.leb_le. lia.
Qed.

Lemma safeSetChannel_accept channel value chans :
  1 <= channel <= 16 -> in_range value ->
  safeSetChannel channel value chans = <[Z.to_nat (channel - 1) := value]> chans.
Proof.
  intros Hc Hv. unfold safeSetChannel.
  destruct (_ && _) eqn:E; [reflexivity |].
  apply not_true_iff_false in E. rewrite safeSetChannel_guard in E. tauto.
Qed.

Lemma safeSetChannel_reject channel value chans :
  ~ (1 <= channel <= 16) \/ ~ in_range value ->
  safeSetChannel channel value chans = chans.
Proof.
  intros Hout. unfold safeSetChannel.
  destruct (_ && _) eqn:E; [| reflexivity].
  rewrite safeSetChannel_guard in E. tauto.
Qed.

(** Either nothing is stored, or an in-range value is. *)
Lemma safeSetChannel_cases channel value chans :
  safeSetChannel channel value chans = chans \/
  (in_range value /\
   safeSetChannel channel value chans = <[Z.to_nat (channel - 1) := value]> chans).
Proof.
  unfold safeSetChannel.
  destruct (_ && _) eqn:E; [right | left; reflexivity].
  rewrite safeSetChannel_guard in E. tauto.
Qed.

Lemma insert_valid (i : nat) value (chans : list Z) :
  in_range value -> valid_store chans -> valid_store (<[i := value]> chans).
Proof.
  intros Hv [Hlen Hall]. split.
  - rewrite length_insert. exact Hlen.
  - apply Forall_insert; assumption.
Qed.

Lemma safeSetChannel_valid channel value chans :
  valid_store chans -> valid_store (safeSetChannel channel value chans).
Proof.
  intros Hvalid.
  destruct (safeSetChannel_cases channel value chans) as [-> | [Hv ->]].
  - exact Hvalid.
  - apply insert_valid; assumption.
Qed.

Create HintDb store.
#[local] Hint Resolve safeSetChannel_valid currentChannels_init_valid : store.

Lemma boot_chans_valid : valid_store boot_chans.
Proof.
  unfold boot_chans. apply insert_valid; [| auto with store].
  unfold in_range, Constants.DEFAULT_THROTTLE_VALUE, Constants.CHANNEL_MIN,
    Constants.CHANNEL_MAX. lia.
Qed.

(** C4: a call of [safeSetChannel] with the index outside [1,16] or the
    value outside [1000,2000] returns the store as it was, whole; with
    both in range it stores the value at position [index - 1] and leaves
    every other position as it was.  The function is total: there is no
    error result. *)
Theorem safeSetChannel_contract (channel value : Z) (chans : list Z) :
  length chans = 16%nat ->
  ((~ (1 <= channel <= 16) \/ ~ (1000 <= value <= 2000)) ->
     safeSetChannel channel value chans = chans) /\
  (1 <= channel <= 16 -> 1000 <= value <= 2000 ->
     safeSetChannel channel value chans !! Z.to_nat (channel - 1) = Some value /\
     length (safeSetChannel channel value chans) = 16%nat /\
     forall j : nat, j <> Z.to_nat (channel - 1) ->
       safeSetChannel channel value chans !! j = chans !! j).
Proof.
  intros Hlen. split.
  - intros Hout. apply safeSetChannel_reject. exact Hout.
  - intros Hc Hv. rewrite safeSetChannel_accept by assumption.
    repeat split.
    + apply list_lookup_insert_eq. lia.
    + rewrite length_insert. exact Hlen.
    + intros j Hj. apply list_lookup_insert_ne. congruence.
Qed.

Lemma safeSetChannel_contract_witness :
  length boot_chans = 16%nat /\
  safeSetChannel 5 1700 boot_chans !! 4%nat = Some 1700 /\
  safeSetChannel 17 1700 boot_chans = boot_chans /\
  safeSetChannel 5 2001 boot_chans = boot_chans.
Proof.
  assert (Hlen : length boot_chans = 16%nat) by reflexivity.
  split; [exact Hlen |].
  split; [| split].
  - apply (proj2 (safeSetChannel_contract 5 1700 boot_chans Hlen)); lia.
  - apply (proj1 (safeSetChannel_contract 17 1700 boot_chans Hlen)); lia.
  - apply (proj1 (safeSetChannel_contract 5 2001 boot_chans Hlen)); lia.
Defined.

(** ** Every writer keeps the store valid *)

Lemma setChannels_pair_valid token chans :
  valid_store chans -> valid_store (setChannels_pair token chans).
Proof.
  intros Hvalid. unfold setChannels_pair.
  destruct (find_char "=" token) as [pos |]; [| exact Hvalid].
  destruct (stoi (substring 0 pos token)) as [c |]; [| exact Hvalid].
  destruct (stoi (substr_from (pos + 1) token)) as [value |]; auto with store.
Qed.

Lemma setChannels_loop_valid toks chans :
  valid_store chans ->
  valid_store (fold_left (fun st tok => setChannels_pair tok st) toks chans).
Proof.
  revert chans. induction toks as [| tok toks IH]; intros chans Hvalid; cbn [fold_left].
  - exact Hvalid.
  - apply IH. apply setChannels_pair_valid. exact Hvalid.
Qed.

Lemma parseCommand_valid line chans :
  valid_store chans -> valid_store (fst (parseCommand line chans)).
Proof.
  intros Hvalid. unfold parseCommand.
  destruct line as [| c0 rest]; [exact Hvalid |].
  destruct (Ascii.eqb c0 "#"); [exact Hvalid |].
  destruct (startsWith _ "setChannels").
  { cbn [fst]. apply setChannels_loop_valid. exact Hvalid. }
  destruct (startsWith _ "setChannel").
  { destruct (sscanf_setChannel _) as [[ch value] |]; cbn [fst]; auto with store. }
  destruct (String.eqb _ "sendChannels"); [exact Hvalid |].
  destruct (startsWith _ "setMode"); exact Hvalid.
Qed.

Lemma command_step_valid st line :
  valid_store (fst st) -> valid_store (fst (command_step st line)).
Proof.
  destruct st as [chans need]. cbn [fst]. intros Hvalid.
  unfold command_step.
  pose proof (parseCommand_valid line chans Hvalid) as Hp.
  destruct (parseCommand line chans) as [chans' ok]. exact Hp.
Qed.

Lemma drain_commands_valid file st :
  valid_store (fst st) -> valid_store (fst (drain_commands file st)).
Proof.
  unfold drain_commands. destruct file as [content |]; [| trivial].
  revert st. induction (getlines content) as [| line rest IH]; intros st Hvalid;
    cbn [fold_left].
  - exact Hvalid.
  - apply IH. apply command_step_valid. exact Hvalid.
Qed.

Lemma on_axis_valid a f chans :
  (forall v c, valid_store c -> valid_store (f v c)) ->
  valid_store chans -> valid_store (on_axis a f chans).
Proof. intros Hf Hvalid. destruct a; cbn [on_axis]; auto. Qed.

Lemma mapJoystick_valid ax chans :
  valid_store chans -> valid_store (mapJoystick ax chans).
Proof.
  intros Hvalid. unfold mapJoystick.
  repeat (apply on_axis_valid; [intros; auto with store |]).
  exact Hvalid.
Qed.

Lemma tick_in_mode_valid mode cfg inp s :
  valid_store (currentChannels s) ->
  valid_store (currentChannels (fst (tick_in_mode mode cfg inp s))).
Proof.
  intros Hvalid. unfold tick_in_mode.
  pose proof (drain_commands_valid (cmdFile inp)
                (currentChannels s, needToSendChannels s) Hvalid) as Hd.
  destruct (drain_commands _ _) as [ch1 need1]. cbn [fst] in Hd.
  destruct (USE_CRSF_SEND cfg); [| exact Hd].
  assert (Hj : valid_store
            (fst (if String.eqb mode "joystick" && joystickAvailable cfg
                  then (mapJoystick (joystick inp) ch1, true)
                  else (ch1, need1)))).
  { destruct (_ && _); cbn [fst]; [apply mapJoystick_valid |]; exact Hd. }
  destruct (if String.eqb mode "joystick" && joystickAvailable cfg
            then _ else _) as [ch2 need2].
  cbn [fst] in Hj.
  destruct (_ <=? _); [exact Hj |].
  destruct need2; [destruct (_ <=? _) |]; exact Hj.
Qed.

Lemma reachable_valid cfg s : reachable cfg s -> valid_store (currentChannels s).
Proof.
  induction 1 as [| mode inp s Hreach IH].
  - exact boot_chans_valid.
  - apply tick_in_mode_valid. exact IH.
Qed.

Lemma valid_store_lookup chans (i : nat) v :
  valid_store chans -> chans !! i = Some v -> 1000 <= v <= 2000.
Proof.
  intros [_ Hall] Hi.
  rewrite Forall_lookup in Hall. exact (Hall i v Hi).
Qed.

(** C1: in every state the loop of [main] can reach, the store holds 16
    values, each in [1000,2000]; the static initialiser is in range;
    and each writer applied to such a state ([safeSetChannel] itself, a
    parsed command line, the joystick mapping) either leaves the store
    as it is or stores an in-range value, so that the result again
    holds 16 in-range values. *)
Theorem store_invariant (cfg : LoopConfig) (s : MainState) :
  reachable cfg s ->
  (length (currentChannels s) = 16%nat /\
   forall (i : nat) v, currentChannels s !! i = Some v -> 1000 <= v <= 2000) /\
  Forall (fun v => 1000 <= v <= 2000) currentChannels_init /\
  (forall channel value,
     safeSetChannel channel value (currentChannels s) = currentChannels s \/
     (1000 <= value <= 2000 /\
      safeSetChannel channel value (currentChannels s)
        = <[Z.to_nat (channel - 1) := value]> (currentChannels s))) /\
  (forall line, valid_store (fst (parseCommand line (currentChannels s)))) /\
  (forall ax, valid_store (mapJoystick ax (currentChannels s))).
Proof.
  intros Hreach.
  pose proof (reachable_valid cfg s Hreach) as Hvalid.
  repeat apply conj.
  - apply valid_store_length. exact Hvalid.
  - intros i v. apply valid_store_lookup. exact Hvalid.
  - exact (proj2 currentChannels_init_valid).
  - intros channel value. apply safeSetChannel_cases.
  - intros line. apply parseCommand_valid. exact Hvalid.
  - intros ax. apply mapJoystick_valid. exact Hvalid.
Qed.

(** ** Command lines *)

Example tokens_sample :
  tokens "setChannels 1=1200  3=1800 " = ["setChannels"; "1=1200"; "3=1800"].
Proof. reflexivity. Qed.

Example getlines_sample :
  getlines (String "a" (String "010" (String "010" (String "b" (String "010" EmptyString)))))
    = ["a"; ""; "b"].
Proof. reflexivity. Qed.

Example stoi_sample :
  stoi "12ab" = Some 12 /\ stoi "abc" = None /\ stoi " -7" = Some (-7)
  /\ stoi "2147483648" = None /\ stoi "" = None.
Proof. repeat split; reflexivity. Qed.

Example setChannel_sample :
  parseCommand "setChannel 5 1700" boot_chans = (<[4%nat := 1700]> boot_chans, true) /\
  parseCommand "setChannel 5 999" boot_chans = (boot_chans, true) /\
  parseCommand "setChannel 5" boot_chans = (boot_chans, true) /\
  parseCommand " setChannel 5 1700" boot_chans = (boot_chans, false) /\
  parseCommand "# setChannel 5 1700" boot_chans = (boot_chans, false).
Proof. repeat split; vm_compute; reflexivity. Qed.

(** C6: on any store of 16 in-range values, the line
    "setChannels 1=1200 3=1800 99=1 1=abc" is reported as recognized
    and applies exactly the two writes channel 1 := 1200 and
    channel 3 := 1800; the pair 99=1 and the pair 1=abc change nothing,
    and a pair that follows them on a line is still applied. *)
Theorem parse_setChannels_line (chans : list Z) :
  valid_store chans ->
  snd (parseCommand "setChannels 1=1200 3=1800 99=1 1=abc" chans) = true /\
  fst (parseCommand "setChannels 1=1200 3=1800 99=1 1=abc" chans)
    = <[2%nat := 1800]> (<[0%nat := 1200]> chans) /\
  fst (parseCommand "setChannels 1=1200 3=1800 99=1 1=abc" chans) !! 0%nat = Some 1200 /\
  fst (parseCommand "setChannels 1=1200 3=1800 99=1 1=abc" chans) !! 2%nat = Some 1800 /\
  (forall j : nat, j <> 0%nat -> j <> 2%nat ->
     fst (parseCommand "setChannels 1=1200 3=1800 99=1 1=abc" chans) !! j = chans !! j) /\
  (forall c, setChannels_pair "99=1" c = c) /\
  (forall c, setChannels_pair "1=abc" c = c) /\
  (forall c, parseCommand "setChannels 99=1 1=abc 3=1800" c
             = (safeSetChannel 3 1800 c, true)).
Proof.
  intros Hvalid.
  pose proof (valid_store_length chans Hvalid) as Hlen.
  assert (Hparse : parseCommand "setChannels 1=1200 3=1800 99=1 1=abc" chans
                   = (<[2%nat := 1800]> (<[0%nat := 1200]> chans), true))
    by (vm_compute; reflexivity).
  rewrite Hparse. cbn [fst snd].
  repeat apply conj; try reflexivity.
  - rewrite list_lookup_insert_ne by discriminate.
    apply list_lookup_insert_eq. lia.
  - apply list_lookup_insert_eq. rewrite length_insert. lia.
  - intros j H0 H2. rewrite !list_lookup_insert_ne by congruence. reflexivity.
Qed.

Lemma parse_setChannels_line_witness :
  valid_store boot_chans /\
  fst (parseCommand "setChannels 1=1200 3=1800 99=1 1=abc" boot_chans)
    = <[2%nat := 1800]> (<[0%nat := 1200]> boot_chans).
Proof.
  split; [exact boot_chans_valid |].
  exact (proj1 (proj2 (parse_setChannels_line boot_chans boot_chans_valid))).
Defined.

Lemma startsWith_is_prefix pre : forall str, startsWith str pre = is_prefix pre str.
Proof.
  unfold startsWith.
  induction pre as [| a pre IH]; intros str; cbn [String.length is_prefix].
  - destruct str; reflexivity.
  - destruct str as [| b str]; [reflexivity |].
    cbn [substring String.eqb]. rewrite IH.
    destruct (Ascii.eqb b a); reflexivity.
Qed.

Lemma is_prefix_trans a : forall b c,
  is_prefix a b = true -> is_prefix b c = true -> is_prefix a c = true.
Proof.
  induction a as [| x a IH]; intros b c Hab Hbc; [reflexivity |].
  destruct b as [| y b]; [discriminate |].
  destruct c as [| z c]; [discriminate |].
  cbn [is_prefix] in *.
  apply andb_true_iff in Hab as [Hyx Hab].
  apply andb_true_iff in Hbc as [Hzy Hbc].
  apply Ascii.eqb_eq in Hyx, Hzy. subst.
  rewrite Ascii.eqb_refl. cbn [andb].
  eapply IH; eassumption.
Qed.

(** A line that begins with a keyword begins a first token with it. *)
Lemma first_token_prefix pre : forall line,
  pre <> EmptyString -> no_space pre = true -> is_prefix pre line = true ->
  exists t, first_token line = Some t /\ is_prefix pre t = true.
Proof.
  unfold first_token.
  induction pre as [| a pre IH]; intros line Hne Hns Hpre; [congruence |].
  destruct line as [| c r]; [discriminate |].
  cbn [is_prefix] in Hpre. apply andb_true_iff in Hpre as [Hca Hpre].
  apply Ascii.eqb_eq in Hca. subst c.
  cbn [no_space] in Hns. apply andb_true_iff in Hns as [Ha Hns].
  apply negb_true_iff in Ha.
  cbn [tokens]. rewrite Ha.
  destruct pre as [| b pre].
  - destruct r as [| c' r'].
    + eexists; split; [reflexivity |]. cbn [is_prefix].
      rewrite Ascii.eqb_refl. reflexivity.
    + destruct (isspace c').
      * eexists; split; [reflexivity |]. cbn [is_prefix].
        rewrite Ascii.eqb_refl. reflexivity.
      * destruct (tokens (String c' r')); eexists; (split; [reflexivity |]);
          cbn [is_prefix]; rewrite Ascii.eqb_refl; reflexivity.
  - destruct (IH r ltac:(discriminate) Hns Hpre) as (t & Ht & Hpt).
    destruct r as [| c' r']; [discriminate |].
    assert (Hc' : isspace c' = false).
    { cbn [is_prefix] in Hpre. apply andb_true_iff in Hpre as [Hcb _].
      apply Ascii.eqb_eq in Hcb. subst c'.
      cbn [no_space] in Hns. apply andb_true_iff in Hns as [Hb _].
      apply negb_true_iff in Hb. exact Hb. }
    rewrite Hc'.
    destruct (tokens (String c' r')) as [| t0 ts]; [discriminate |].
    cbn [head] in Ht. injection Ht as ->.
    eexists; split; [reflexivity |].
    cbn [is_prefix]. rewrite Ascii.eqb_refl. exact Hpt.
Qed.

Lemma startsWith_first_token pre line :
  pre <> EmptyString -> no_space pre = true -> startsWith line pre = true ->
  exists t, first_token line = Some t /\ startsWith t pre = true.
Proof.
  intros Hne Hns H. rewrite startsWith_is_prefix in H.
  destruct (first_token_prefix pre line Hne Hns H) as (t & Ht & Hp).
  exists t. rewrite startsWith_is_prefix. auto.
Qed.

Lemma startsWith_setChannels line :
  startsWith line "setChannels" = true -> startsWith line "setChannel" = true.
Proof.
  rewrite !startsWith_is_prefix. apply is_prefix_trans. reflexivity.
Qed.

(** The returned flag is a function of the line alone. *)
Lemma parseCommand_snd line chans : snd (parseCommand line chans) = recognized line.
Proof.
  unfold recognized, parseCommand.
  destruct line as [| c0 rest]; [reflexivity |].
  destruct (Ascii.eqb c0 "#"); [reflexivity |].
  destruct (startsWith _ "setChannels"); [reflexivity |].
  destruct (startsWith _ "setChannel").
  { destruct (sscanf_setChannel _) as [[ch value] |]; reflexivity. }
  destruct (String.eqb _ "sendChannels"); [reflexivity |].
  destruct (startsWith _ "setMode"); reflexivity.
Qed.

(** A line answered with [false] leaves the store as it was. *)
Lemma parseCommand_unrecognized line chans :
  recognized line = false -> parseCommand line chans = (chans, false).
Proof.
  unfold recognized, parseCommand.
  destruct line as [| c0 rest]; [reflexivity |].
  destruct (Ascii.eqb c0 "#"); [reflexivity |].
  destruct (startsWith _ "setChannels"); [discriminate |].
  destruct (startsWith _ "setChannel").
  { destruct (sscanf_setChannel _) as [[ch value] |]; discriminate. }
  destruct (String.eqb _ "sendChannels"); [discriminate |].
  destruct (startsWith _ "setMode"); [discriminate | reflexivity].
Qed.

(** The lines the parser recognizes, by their beginning. *)
Lemma recognized_iff line :
  recognized line = true <->
  startsWith line "setChannel" = true \/ line = "sendChannels"
  \/ startsWith line "setMode" = true.
Proof.
  unfold recognized, parseCommand.
  destruct line as [| c0 rest].
  { cbn. split; [discriminate | intros [H | [H | H]]; discriminate]. }
  destruct (Ascii.eqb c0 "#") eqn:Ehash.
  { apply Ascii.eqb_eq in Ehash. subst c0. cbn.
    split; [discriminate | intros [H | [H | H]]; discriminate]. }
  destruct (startsWith _ "setChannels") eqn:E1.
  { apply startsWith_setChannels in E1. cbn [snd]. tauto. }
  destruct (startsWith _ "setChannel") eqn:E2.
  { destruct (sscanf_setChannel _) as [[ch value] |]; cbn [snd]; tauto. }
  destruct (String.eqb _ "sendChannels") eqn:E3.
  { apply String.eqb_eq in E3. cbn [snd]. tauto. }
  apply String.eqb_neq in E3.
  destruct (startsWith _ "setMode") eqn:E4; cbn [snd]; [tauto |].
  split; [discriminate |]. intros [H | [H | H]]; congruence.
Qed.

(** C7, the claim as stated fails: the first token of
    "setChannelsX 1=1200" is none of the four keywords and the line is
    neither blank nor a comment, yet the parser answers [true] and
    writes channel 1; the same holds for "setChannel5 1700", and
    "setModeX" is answered [true] as well. *)
Lemma keyword_prefix_counterexample :
  first_token "setChannelsX 1=1200" = Some "setChannelsX" /\
  ~ In "setChannelsX" ["setChannels"; "setChannel"; "sendChannels"; "setMode"] /\
  parseCommand "setChannelsX 1=1200" boot_chans = (<[0%nat := 1200]> boot_chans, true) /\
  <[0%nat := 1200]> boot_chans <> boot_chans /\
  parseCommand "setChannel5 1700" boot_chans = (<[4%nat := 1700]> boot_chans, true) /\
  parseCommand "setModeX" boot_chans = (boot_chans, true).
Proof.
  repeat apply conj; try (vm_compute; reflexivity).
  - cbn [In]. intros [H | [H | [H | [H | []]]]]; discriminate.
  - vm_compute. discriminate.
Qed.

(** C7, amended: a line whose first token does not begin with
    "setChannel" (which covers "setChannels") or with "setMode" and is
    not "sendChannels" is answered [false] with the store as it was, and
    the [getline] round of the scheduler that reads it changes neither
    the store nor the expedite flag. *)
Theorem unrecognized_line (line : string) (chans : list Z) (need : bool) :
  (forall t, first_token line = Some t ->
     startsWith t "setChannel" = false /\ startsWith t "setMode" = false
     /\ t <> "sendChannels") ->
  parseCommand line chans = (chans, false) /\
  command_step (chans, need) line = (chans, need).
Proof.
  intros Htok.
  assert (Hrec : recognized line = false).
  { apply not_true_iff_false. rewrite recognized_iff.
    intros [H | [H | H]].
    - apply startsWith_first_token in H as (t & Ht & Hp); [| discriminate | reflexivity].
      destruct (Htok t Ht) as (H1 & _ & _). congruence.
    - subst line. destruct (Htok "sendChannels" eq_refl) as (_ & _ & H3). congruence.
    - apply startsWith_first_token in H as (t & Ht & Hp); [| discriminate | reflexivity].
      destruct (Htok t Ht) as (_ & H2 & _). congruence. }
  pose proof (parseCommand_unrecognized line chans Hrec) as Hp.
  split; [exact Hp |].
  unfold command_step. rewrite Hp. reflexivity.
Qed.

Lemma unrecognized_line_witness :
  (forall t, first_token "SetChannel 5 1700" = Some t ->
     startsWith t "setChannel" = false /\ startsWith t "setMode" = false
     /\ t <> "sendChannels") /\
  parseCommand "SetChannel 5 1700" boot_chans = (boot_chans, false) /\
  command_step (boot_chans, false) "SetChannel 5 1700" = (boot_chans, false).
Proof.
  assert (H : forall t, first_token "SetChannel 5 1700" = Some t ->
     startsWith t "setChannel" = false /\ startsWith t "setMode" = false
     /\ t <> "sendChannels").
  { intros t Ht. vm_compute in Ht. injection Ht as <-.
    repeat split; try reflexivity. discriminate. }
  split; [exact H |].
  exact (unrecognized_line "SetChannel 5 1700" boot_chans false H).
Defined.

(** ** The scheduler *)

Lemma getWorkMode_not_joystick : String.eqb getWorkMode "joystick" = false.
Proof. reflexivity. Qed.

Lemma drain_lines_quiet lines : forall chans need,
  forallb (fun line => negb (recognized line)) lines = true ->
  fold_left command_step lines (chans, need) = (chans, need).
Proof.
  induction lines as [| line rest IH]; intros chans need Hq; [reflexivity |].
  cbn [forallb] in Hq. apply andb_true_iff in Hq as [Hl Hrest].
  apply negb_true_iff in Hl.
  cbn [fold_left]. unfold command_step at 2.
  rewrite (parseCommand_unrecognized line chans Hl).
  apply IH. exact Hrest.
Qed.

Lemma drain_commands_quiet inp chans need :
  no_commands inp = true ->
  drain_commands (cmdFile inp) (chans, need) = (chans, need).
Proof.
  unfold no_commands, drain_commands.
  destruct (cmdFile inp) as [content |]; [| reflexivity].
  apply drain_lines_quiet.
Qed.

Lemma drain_lines_flag_stays lines : forall chans,
  snd (fold_left command_step lines (chans, true)) = true.
Proof.
  induction lines as [| line rest IH]; intros chans; [reflexivity |].
  cbn [fold_left]. unfold command_step at 2.
  destruct (parseCommand line chans) as [chans' ok].
  destruct ok; apply IH.
Qed.

Lemma drain_lines_flag_raised lines : forall chans need,
  existsb recognized lines = true ->
  snd (fold_left command_step lines (chans, need)) = true.
Proof.
  induction lines as [| line rest IH]; intros chans need Hex; [discriminate |].
  cbn [existsb] in Hex. cbn [fold_left]. unfold command_step at 2.
  pose proof (parseCommand_snd line chans) as Hs.
  destruct (parseCommand line chans) as [chans' ok]. cbn [snd] in Hs. subst ok.
  destruct (recognized line).
  - apply drain_lines_flag_stays.
  - apply IH. exact Hex.
Qed.

Lemma drain_commands_flag_raised inp chans need :
  has_command inp = true ->
  snd (drain_commands (cmdFile inp) (chans, need)) = true.
Proof.
  unfold has_command, drain_commands.
  destruct (cmdFile inp) as [content |]; [| discriminate].
  apply drain_lines_flag_raised.
Qed.

(** An iteration without commands and without a pending flag, earlier
    than the send period: nothing is emitted, nothing changes. *)
Lemma tick_quiet_early cfg inp s :
  USE_CRSF_SEND cfg = true ->
  needToSendChannels s = false ->
  no_commands inp = true ->
  to_uint32 (currentMillis inp - lastSendMs s) < Constants.CRSF_SEND_PERIOD_MS ->
  tick cfg inp s = (s, None).
Proof.
  intros Hsend Hneed Hq Hearly. unfold tick, tick_in_mode.
  rewrite (drain_commands_quiet inp _ _ Hq), Hsend, getWorkMode_not_joystick.
  cbn [andb].
  destruct (_ <=? _) eqn:E; [apply Z.leb_le in E; lia |].
  rewrite Hneed. destruct s; cbn in *. subst. reflexivity.
Qed.

(** An iteration without commands once the send period has elapsed. *)
Lemma tick_quiet_due cfg inp s :
  USE_CRSF_SEND cfg = true ->
  no_commands inp = true ->
  Constants.CRSF_SEND_PERIOD_MS <= to_uint32 (currentMillis inp - lastSendMs s) ->
  tick cfg inp s =
    ({| lastSendMs := currentMillis inp; needToSendChannels := false;
        currentChannels := currentChannels s |}, Some (currentChannels s)).
Proof.
  intros Hsend Hq Hdue. unfold tick, tick_in_mode.
  rewrite (drain_commands_quiet inp _ _ Hq), Hsend, getWorkMode_not_joystick.
  cbn [andb].
  destruct (_ <=? _) eqn:E; [reflexivity | apply Z.leb_gt in E; lia].
Qed.

Lemma run_app cfg ins1 : forall ins2 s,
  run cfg (ins1 ++ ins2)%list s =
    (fst (run cfg ins2 (fst (run cfg ins1 s))),
     (snd (run cfg ins1 s) ++ snd (run cfg ins2 (fst (run cfg ins1 s))))%list).
Proof.
  induction ins1 as [| inp rest IH]; intros ins2 s.
  - cbn. destruct (run cfg ins2 s); reflexivity.
  - cbn [app run]. destruct (tick cfg inp s) as [s1 e].
    rewrite IH. destruct (run cfg rest s1) as [s2 es]. reflexivity.
Qed.

(** Iterations without commands, all earlier than the send period. *)
Lemma run_quiet_early cfg ins : forall s,
  USE_CRSF_SEND cfg = true ->
  needToSendChannels s = false ->
  Forall (fun inp => no_commands inp = true /\
            to_uint32 (currentMillis inp - lastSendMs s) < Constants.CRSF_SEND_PERIOD_MS)
         ins ->
  run cfg ins s = (s, replicate (length ins) None).
Proof.
  induction ins as [| inp rest IH]; intros s Hsend Hneed Hall; [reflexivity |].
  apply Forall_cons in Hall as [[Hq Hearly] Hrest].
  cbn [run]. rewrite (tick_quiet_early cfg inp s Hsend Hneed Hq Hearly).
  rewrite (IH s Hsend Hneed Hrest). reflexivity.
Qed.

(** C5: from a state without a pending expedite flag, ten iterations
    one millisecond apart that carry no command emit nothing on the
    first nine and emit the whole store on the tenth, when 10 ms have
    elapsed since the last emission; the clock may wrap around. *)
Theorem periodic_emission (cfg : LoopConfig) (s : MainState) (ins : list TickInput) :
  USE_CRSF_SEND cfg = true ->
  needToSendChannels s = false ->
  length ins = 10%nat ->
  (forall (k : nat) inp, ins !! k = Some inp ->
     no_commands inp = true /\
     currentMillis inp = to_uint32 (lastSendMs s + (Z.of_nat k + 1))) ->
  snd (run cfg ins s) = (replicate 9 None ++ [Some (currentChannels s)])%list /\
  lastSendMs (fst (run cfg ins s)) = to_uint32 (lastSendMs s + 10) /\
  currentChannels (fst (run cfg ins s)) = currentChannels s.
Proof.
  intros Hsend Hneed Hlen Hins.
  assert (Hsplit : ins = (take 9 ins ++ drop 9 ins)%list) by (symmetry; apply take_drop).
  destruct (drop 9 ins) as [| last rest] eqn:Hdrop.
  { apply (f_equal length) in Hdrop. rewrite length_drop, Hlen in Hdrop. discriminate. }
  assert (rest = []) as ->.
  { apply (f_equal length) in Hdrop. rewrite length_drop, Hlen in Hdrop.
    destruct rest; [reflexivity | discriminate]. }
  assert (Hlast : ins !! 9%nat = Some last).
  { rewrite <- (Nat.add_0_r 9), <- lookup_drop, Hdrop. reflexivity. }
  assert (Hearly : Forall (fun inp => no_commands inp = true /\
            to_uint32 (currentMillis inp - lastSendMs s) < Constants.CRSF_SEND_PERIOD_MS)
            (take 9 ins)).
  { apply Forall_lookup. intros k inp Hk.
    apply lookup_take_Some in Hk as [Hk Hlt].
    destruct (Hins k inp Hk) as [Hq Ht]. split; [exact Hq |].
    rewrite Ht, to_uint32_shift by lia.
    unfold Constants.CRSF_SEND_PERIOD_MS. lia. }
  destruct (Hins 9%nat last Hlast) as [Hq Ht].
  rewrite Hsplit, run_app.
  rewrite (run_quiet_early cfg (take 9 ins) s Hsend Hneed Hearly).
  rewrite length_take, Hlen. cbn [fst snd Nat.min run].
  rewrite (tick_quiet_due cfg last s Hsend Hq).
  - cbn. rewrite Ht. auto.
  - rewrite Ht, to_uint32_shift by lia.
    unfold Constants.CRSF_SEND_PERIOD_MS. lia.
Qed.

Lemma periodic_emission_witness :
  USE_CRSF_SEND cfg_send = true /\
  needToSendChannels (sent_at 4294967290 boot_chans) = false /\
  length (ticks_from 4294967290 10) = 10%nat /\
  snd (run cfg_send (ticks_from 4294967290 10) (sent_at 4294967290 boot_chans))
    = (replicate 9 None ++ [Some boot_chans])%list /\
  lastSendMs (fst (run cfg_send (ticks_from 4294967290 10)
                     (sent_at 4294967290 boot_chans))) = 4.
Proof.
  assert (Hins : forall (k : nat) inp,
            ticks_from 4294967290 10 !! k = Some inp ->
            no_commands inp = true /\
            currentMillis inp
              = to_uint32 (lastSendMs (sent_at 4294967290 boot_chans) + (Z.of_nat k + 1))).
  { intros k inp Hk.
    do 10 (destruct k as [| k]; [injection Hk as <-; split; reflexivity |]).
    discriminate. }
  pose proof (periodic_emission cfg_send (sent_at 4294967290 boot_chans)
                (ticks_from 4294967290 10) eq_refl eq_refl eq_refl Hins) as (Htrace & Hlast & _).
  refine (conj eq_refl (conj eq_refl (conj eq_refl (conj Htrace _)))).
  rewrite Hlast. reflexivity.
Defined.

(** An iteration that reads a recognized command when at least 2 ms
    have passed since the last emission emits on the spot. *)
Lemma tick_command_emits cfg inp s :
  USE_CRSF_SEND cfg = true ->
  has_command inp = true ->
  2 <= to_uint32 (currentMillis inp - lastSendMs s) ->
  tick cfg inp s =
    (sent_at (currentMillis inp)
       (fst (drain_commands (cmdFile inp) (currentChannels s, needToSendChannels s))),
     Some (fst (drain_commands (cmdFile inp) (currentChannels s, needToSendChannels s)))).
Proof.
  intros Hsend Hcmd Hgap. unfold tick, tick_in_mode.
  pose proof (drain_commands_flag_raised inp (currentChannels s)
                (needToSendChannels s) Hcmd) as Hflag.
  destruct (drain_commands _ _) as [ch1 need1]. cbn [fst snd] in *. subst need1.
  rewrite Hsend, getWorkMode_not_joystick. cbn [andb].
  destruct (Constants.CRSF_SEND_PERIOD_MS <=? _); [reflexivity |].
  destruct (2 <=? _) eqn:E; [reflexivity | apply Z.leb_gt in E; lia].
Qed.

(** An iteration that reads a recognized command less than 2 ms after
    the last emission emits nothing and keeps the flag raised. *)
Lemma tick_command_deferred cfg inp s :
  USE_CRSF_SEND cfg = true ->
  has_command inp = true ->
  to_uint32 (currentMillis inp - lastSendMs s) < 2 ->
  snd (tick cfg inp s) = None /\
  needToSendChannels (fst (tick cfg inp s)) = true /\
  lastSendMs (fst (tick cfg inp s)) = lastSendMs s.
Proof.
  intros Hsend Hcmd Hgap. unfold tick, tick_in_mode.
  pose proof (drain_commands_flag_raised inp (currentChannels s)
                (needToSendChannels s) Hcmd) as Hflag.
  destruct (drain_commands _ _) as [ch1 need1]. cbn [fst snd] in *. subst need1.
  rewrite Hsend, getWorkMode_not_joystick. cbn [andb].
  unfold Constants.CRSF_SEND_PERIOD_MS.
  destruct (10 <=? _) eqn:E1; [apply Z.leb_le in E1; lia |].
  destruct (2 <=? _) eqn:E2; [apply Z.leb_le in E2; lia |].
  cbn. auto.
Qed.

(** C2, the claim as stated fails: after an emission at 1000 ms, a
    command read at 1003 ms is followed by an emission in the same
    iteration, at 1003 ms and not at 1005 ms or later. *)
Lemma expedite_counterexample :
  run cfg_send [idle_at 1000; command_at 1003 "setChannel 5 1700"] boot_state
    = (sent_at 1003 (<[4%nat := 1700]> boot_chans),
       [Some boot_chans; Some (<[4%nat := 1700]> boot_chans)]) /\
  snd (tick cfg_send (command_at 1003 "setChannel 5 1700") (sent_at 1000 boot_chans))
    = Some (<[4%nat := 1700]> boot_chans) /\
  ~ (1003 + 2 <= lastSendMs (fst (tick cfg_send (command_at 1003 "setChannel 5 1700")
                                     (sent_at 1000 boot_chans)))).
Proof.
  repeat apply conj; try (vm_compute; reflexivity).
  vm_compute. intros H. apply H. reflexivity.
Qed.

(** C2, amended: when a recognized command is read [d] ms after the
    last emission with [d >= 2] (the 3 ms of the claim included), the
    iteration that reads it emits the store as the command left it,
    records its own time as the time of the last emission and clears
    the flag: the 2 ms are counted from the last emission, not from the
    arrival of the command. *)
Theorem expedite_emits_on_arrival (cfg : LoopConfig) (inp : TickInput)
    (s : MainState) (d : Z) :
  USE_CRSF_SEND cfg = true ->
  has_command inp = true ->
  2 <= d < 2 ^ 32 ->
  currentMillis inp = to_uint32 (lastSendMs s + d) ->
  to_uint32 (currentMillis inp - lastSendMs s) = d /\
  snd (tick cfg inp s)
    = Some (fst (drain_commands (cmdFile inp) (currentChannels s, needToSendChannels s))) /\
  snd (tick cfg inp s) = Some (currentChannels (fst (tick cfg inp s))) /\
  lastSendMs (fst (tick cfg inp s)) = currentMillis inp /\
  needToSendChannels (fst (tick cfg inp s)) = false.
Proof.
  intros Hsend Hcmd Hd Ht.
  assert (Hgap : to_uint32 (currentMillis inp - lastSendMs s) = d)
    by (rewrite Ht; apply to_uint32_shift; lia).
  rewrite (tick_command_emits cfg inp s Hsend Hcmd) by lia.
  cbn. auto.
Qed.

Lemma expedite_emits_on_arrival_witness :
  USE_CRSF_SEND cfg_send = true /\
  has_command (command_at 1003 "sendChannels") = true /\
  2 <= 3 < 2 ^ 32 /\
  currentMillis (command_at 1003 "sendChannels")
    = to_uint32 (lastSendMs (sent_at 1000 boot_chans) + 3) /\
  snd (tick cfg_send (command_at 1003 "sendChannels") (sent_at 1000 boot_chans))
    = Some boot_chans /\
  lastSendMs (fst (tick cfg_send (command_at 1003 "sendChannels")
                     (sent_at 1000 boot_chans))) = 1003.
Proof.
  assert (Hd : 2 <= 3 < 2 ^ 32) by lia.
  pose proof (expedite_emits_on_arrival cfg_send (command_at 1003 "sendChannels")
                (sent_at 1000 boot_chans) 3 eq_refl eq_refl Hd eq_refl)
    as (_ & Hemit & _ & Hlast & _).
  refine (conj eq_refl (conj eq_refl (conj Hd (conj eq_refl (conj Hemit Hlast))))).
Defined.

Lemma store_invariant_witness :
  reachable cfg_joystick
    (fst (tick_in_mode "joystick" cfg_joystick joystick_sample boot_state)) /\
  length (currentChannels
            (fst (tick_in_mode "joystick" cfg_joystick joystick_sample boot_state)))
    = 16%nat /\
  forall (i : nat) v,
    currentChannels
      (fst (tick_in_mode "joystick" cfg_joystick joystick_sample boot_state)) !! i = Some v ->
    1000 <= v <= 2000.
Proof.
  assert (Hreach : reachable cfg_joystick
            (fst (tick_in_mode "joystick" cfg_joystick joystick_sample boot_state)))
    by (apply reach_tick, reach_boot).
  exact (conj Hreach (proj1 (store_invariant cfg_joystick _ Hreach))).
Defined.

(** ** The inverted axes *)

(** C9, the claim as stated fails in its last clause: on an inverted
    axis the sample -32768 yields 1000, the opposite full deflection
    32767 yields 1001; the two outputs are not the same. *)
Lemma inverted_axis_counterexample :
  axisToUs_inverted (-32768) = 1000 /\
  axisToUs_inverted 32767 = 1001 /\
  axisToUs_inverted (-32768) <> axisToUs_inverted 32767.
Proof.
  repeat apply conj; try reflexivity.
  vm_compute. discriminate.
Qed.

(** C9, amended: on the inverted axes (throttle from axis 1 to channel
    3, pitch from axis 3 to channel 2) the sample -32768 is negated to
    32768, which wraps back to -32768 on conversion to [int16_t], and is
    mapped to 1000, not to the 2000 that 32768 stands for; it so lands
    at the low end of the range, next to the 1001 of the opposite full
    deflection 32767, while its neighbour -32767 is mapped to 1999. *)
Theorem inverted_axis_min_sample :
  to_int16 (- (-32768)) = -32768 /\
  axisToUs_inverted (-32768) = 1000 /\
  axisToUs_inverted (-32768) <> 2000 /\
  mapAxis_spec (- (-32768)) = 2000 /\
  axisToUs_inverted 32767 = 1001 /\
  axisToUs_inverted (-32767) = 1999 /\
  (forall chans, mapJoystick (throttle_only (-32768)) chans = <[2%nat := 1000]> chans) /\
  (forall chans, mapJoystick (pitch_only (-32768)) chans = <[1%nat := 1000]> chans).
Proof.
  repeat apply conj; try reflexivity.
  vm_compute. discriminate.
Qed.

(** Every other 16-bit sample is negated without wrap-around. *)
Lemma axisToUs_inverted_no_wrap raw :
  int16_range raw -> raw <> -32768 -> axisToUs_inverted raw = axisToUs (- raw).
Proof.
  intros Hr Hne. unfold axisToUs_inverted.
  rewrite to_int16_small; [reflexivity |].
  unfold int16_range in *. lia.
Qed.

(** ** The telemetry cycle *)

(** C10: in a cycle whose GPS getter returns null, the record that is
    filled and published keeps the latitude, longitude, altitude and
    speed that the local record held before the cycle (whatever they
    were, on the first cycle too), and every other field carries what
    the transport returned in this cycle. *)
Theorem gps_fields_retained (now : Z) (crsf : Telemetry.CrsfReadings)
    (w : Telemetry.WorkerState) :
  Telemetry.getGpsSensor crsf = None ->
  Constants.TELEMETRY_UPDATE_MS <= Telemetry.to_ms (now - Telemetry.lastUpdate w) ->
  exists rec,
    Telemetry.iteration now crsf true w
      = ({| Telemetry.lastUpdate := now; Telemetry.shared := rec |},
         Telemetry.Cycle (Some rec)) /\
    Telemetry.iteration now crsf false w
      = ({| Telemetry.lastUpdate := now; Telemetry.shared := rec |},
         Telemetry.Cycle None) /\
    Telemetry.latitude rec = Telemetry.latitude (Telemetry.shared w) /\
    Telemetry.longitude rec = Telemetry.longitude (Telemetry.shared w) /\
    Telemetry.altitude rec = Telemetry.altitude (Telemetry.shared w) /\
    Telemetry.speed rec = Telemetry.speed (Telemetry.shared w) /\
    Telemetry.linkUp rec = Telemetry.isLinkUp crsf /\
    Telemetry.lastReceive rec = Telemetry._lastReceive crsf /\
    Telemetry.timestamp rec = Telemetry.to_ms now /\
    length (Telemetry.channels rec) = 16%nat /\
    (forall i : nat, (i < 16)%nat ->
       Telemetry.channels rec !! i = Some (Telemetry.getChannel crsf (Z.of_nat i + 1))) /\
    Telemetry.voltage rec = Telemetry.getBatteryVoltage crsf /\
    Telemetry.current rec = Telemetry.getBatteryCurrent crsf /\
    Telemetry.capacity rec = Telemetry.getBatteryCapacity crsf /\
    Telemetry.remaining rec = Telemetry.getBatteryRemaining crsf /\
    Telemetry.roll rec = Telemetry.getAttitudeRoll crsf /\
    Telemetry.pitch rec = Telemetry.getAttitudePitch crsf /\
    Telemetry.yaw rec = Telemetry.getAttitudeYaw crsf /\
    Telemetry.rollRaw rec = Telemetry.getRawAttitudeRoll crsf /\
    Telemetry.pitchRaw rec = Telemetry.getRawAttitudePitch crsf /\
    Telemetry.yawRaw rec = Telemetry.getRawAttitudeYaw crsf.
Proof.
  intros Hgps Hdue.
  exists (Telemetry.fill (Telemetry.to_ms now) crsf (Telemetry.shared w)).
  unfold Telemetry.iteration.
  destruct (_ <? _) eqn:E; [apply Z.ltb_lt in E; lia |].
  unfold Telemetry.fill, Telemetry.gps_fields. rewrite Hgps. cbn.
  repeat apply conj; try reflexivity.
  intros i Hi.
  do 16 (destruct i as [| i]; [reflexivity |]). lia.
Qed.

Lemma gps_fields_retained_witness :
  Telemetry.getGpsSensor readings_no_gps = None /\
  Constants.TELEMETRY_UPDATE_MS
    <= Telemetry.to_ms (45000000 - Telemetry.lastUpdate
         {| Telemetry.lastUpdate := 20000000; Telemetry.shared := previous_record |}) /\
  exists rec,
    Telemetry.iteration 45000000 readings_no_gps true
      {| Telemetry.lastUpdate := 20000000; Telemetry.shared := previous_record |}
      = ({| Telemetry.lastUpdate := 45000000; Telemetry.shared := rec |},
         Telemetry.Cycle (Some rec)) /\
    Telemetry.latitude rec = Telemetry.double_of_int 55 /\
    Telemetry.remaining rec = 87.
Proof.
  assert (Hdue : Constants.TELEMETRY_UPDATE_MS
            <= Telemetry.to_ms (45000000 - Telemetry.lastUpdate
                 {| Telemetry.lastUpdate := 20000000; Telemetry.shared := previous_record |}))
    by (vm_compute; discriminate).
  destruct (gps_fields_retained 45000000 readings_no_gps
              {| Telemetry.lastUpdate := 20000000; Telemetry.shared := previous_record |}
              eq_refl Hdue)
    as (rec & Hiter & _ & Hlat & _ & _ & _ & _ & _ & _ & _ & _ & _ & _ & _ & Hrem & _).
  refine (conj eq_refl (conj Hdue _)).
  exists rec. exact (conj Hiter (conj Hlat Hrem)).
Defined.

(** * Further properties of the code *)

(** ** Axis mapping: symmetry, reach of the range, the joystick branch *)

Lemma to_int16_range z : int16_range (to_int16 z).
Proof.
  unfold int16_range, to_int16.
  pose proof (Z.mod_pos_bound (z + 2 ^ 15) (2 ^ 16) ltac:(lia)). lia.
Qed.

Lemma axisToUs_cases v :
  int16_range v ->
  (Z.abs v < 100 /\ axisToUs v = 1500) \/
  (100 <= Z.abs v /\ axisToUs v = 1500 + Z.quot (v * 500) 32768).
Proof.
  intros Hv. destruct (Z_lt_le_dec (Z.abs v) 100) as [Hin | Hout].
  - left. split; [exact Hin | apply axisToUs_deadzone; exact Hin].
  - right. split; [exact Hout | apply axisToUs_outside; assumption].
Qed.

Lemma axisToUs_in_range v : int16_range v -> in_range (axisToUs v).
Proof.
  intros Hv. pose proof (scaled_quot_bounds v Hv) as Hq.
  unfold in_range, Constants.CHANNEL_MIN, Constants.CHANNEL_MAX.
  destruct (axisToUs_cases v Hv) as [[_ ->] | [_ ->]]; lia.
Qed.

(** X1: an inverted axis is the mirror image of a direct one around the
    centre 1500, for every sample but -32768. *)
Theorem axisToUs_inverted_mirror (raw : Z) :
  int16_range raw -> raw <> -32768 ->
  axisToUs_inverted raw = 3000 - axisToUs raw.
Proof.
  intros Hr Hne.
  rewrite axisToUs_inverted_no_wrap by assumption.
  assert (Hr' : int16_range (- raw)) by (unfold int16_range in *; lia).
  destruct (axisToUs_cases raw Hr) as [[Ha ->] | [Ha ->]];
    destruct (axisToUs_cases (- raw) Hr') as [[Hb ->] | [Hb ->]];
    try lia.
  replace (- raw * 500) with (- (raw * 500)) by lia.
  rewrite Z.quot_opp_l by lia. lia.
Qed.

Lemma axisToUs_inverted_mirror_witness :
  int16_range 20000 /\ 20000 <> -32768 /\
  axisToUs_inverted 20000 = 3000 - axisToUs 20000.
Proof.
  assert (Hr : int16_range 20000) by (unfold int16_range; lia).
  assert (Hne : 20000 <> -32768) by lia.
  exact (conj Hr (conj Hne (axisToUs_inverted_mirror 20000 Hr Hne))).
Defined.



(** X3: the centre value 1500 is produced in the dead-zone and nowhere
    else: a sample of magnitude 100 or more moves the output off
    centre, to the side of its sign. *)
Theorem axisToUs_centre (v : Z) :
  int16_range v ->
  (axisToUs v = 1500 <-> Z.abs v < 100) /\
  (100 <= v -> 1501 <= axisToUs v) /\
  (v <= -100 -> axisToUs v <= 1499).
Proof.
  intros Hv.
  assert (Hpos : 100 <= v -> 1 <= Z.quot (v * 500) 32768).
  { intros H. change 1 with (Z.quot (100 * 500) 32768).
    apply Z.quot_le_mono; lia. }
  assert (Hneg : v <= -100 -> Z.quot (v * 500) 32768 <= -1).
  { intros H. change (-1) with (Z.quot (- 100 * 500) 32768).
    apply Z.quot_le_mono; lia. }
  destruct (axisToUs_cases v Hv) as [[Ha ->] | [Ha ->]].
  - repeat split; intros; lia.
  - repeat split; intros; lia.
Qed.

Lemma axisToUs_centre_witness :
  int16_range 100 /\ (axisToUs 100 = 1500 <-> Z.abs 100 < 100) /\
  (100 <= 100 -> 1501 <= axisToUs 100).
Proof.
  assert (Hr : int16_range 100) by (unfold int16_range; lia).
  pose proof (axisToUs_centre 100 Hr) as (H1 & H2 & _).
  exact (conj Hr (conj H1 H2)).
Defined.

Lemma channel_in_range_dec channel : {1 <= channel <= 16} + {~ (1 <= channel <= 16)}.
Proof.
  destruct (Z_le_dec 1 channel); [| right; lia].
  destruct (Z_le_dec channel 16); [left | right]; lia.
Qed.

Lemma safeSetChannel_lookup_ne channel value chans (j : nat) :
  j <> Z.to_nat (channel - 1) ->
  safeSetChannel channel value chans !! j = chans !! j.
Proof.
  intros Hj.
  destruct (safeSetChannel_cases channel value chans) as [E | [_ E]]; rewrite E;
    [reflexivity |].
  apply list_lookup_insert_ne. congruence.
Qed.

Lemma safeSetChannel_length channel value chans :
  length (safeSetChannel channel value chans) = length chans.
Proof.
  destruct (safeSetChannel_cases channel value chans) as [E | [_ E]]; rewrite E;
    [reflexivity | apply length_insert].
Qed.

(** X4: when all four axes deliver a sample, the joystick branch writes
    exactly channel 4 from axis 0, channel 3 from the negated axis 1,
    channel 1 from axis 2 and channel 2 from the negated axis 3; none
    of the four writes is rejected by the guard of [safeSetChannel]. *)
Theorem mapJoystick_writes (a0 a1 a2 a3 : Z) (chans : list Z) :
  int16_range a0 -> int16_range a1 -> int16_range a2 -> int16_range a3 ->
  mapJoystick {| axis0 := Some a0; axis1 := Some a1;
                 axis2 := Some a2; axis3 := Some a3 |} chans
    = <[1%nat := axisToUs_inverted a3]>
        (<[0%nat := axisToUs a2]>
           (<[2%nat := axisToUs_inverted a1]>
              (<[3%nat := axisToUs a0]> chans))).
Proof.
  intros H0 H1 H2 H3. unfold mapJoystick, axisToUs_inverted.
  cbn [on_axis axis0 axis1 axis2 axis3].
  rewrite !safeSetChannel_accept
    by (lia || apply axisToUs_in_range; (assumption || apply to_int16_range)).
  reflexivity.
Qed.

Lemma mapJoystick_writes_witness :
  int16_range 150 /\ int16_range (-32768) /\ int16_range 0 /\ int16_range 32767 /\
  mapJoystick {| axis0 := Some 150; axis1 := Some (-32768);
                 axis2 := Some 0; axis3 := Some 32767 |} boot_chans
    = <[1%nat := axisToUs_inverted 32767]>
        (<[0%nat := axisToUs 0]>
           (<[2%nat := axisToUs_inverted (-32768)]>
              (<[3%nat := axisToUs 150]> boot_chans))).
Proof.
  assert (H0 : int16_range 150) by (unfold int16_range; lia).
  assert (H1 : int16_range (-32768)) by (unfold int16_range; lia).
  assert (H2 : int16_range 0) by (unfold int16_range; lia).
  assert (H3 : int16_range 32767) by (unfold int16_range; lia).
  exact (conj H0 (conj H1 (conj H2 (conj H3
           (mapJoystick_writes 150 (-32768) 0 32767 boot_chans H0 H1 H2 H3))))).
Defined.

(** X5: whatever the axes deliver, the joystick branch leaves channels
    5 to 16 as they were and does not change the length of the store. *)
Theorem mapJoystick_frame (ax : JoystickAxes) (chans : list Z) (j : nat) :
  (4 <= j)%nat ->
  mapJoystick ax chans !! j = chans !! j /\
  length (mapJoystick ax chans) = length chans.
Proof.
  intros Hj. unfold mapJoystick. split.
  - destruct (axis0 ax), (axis1 ax), (axis2 ax), (axis3 ax); cbn [on_axis];
      rewrite ?safeSetChannel_lookup_ne by (simpl; lia); reflexivity.
  - destruct (axis0 ax), (axis1 ax), (axis2 ax), (axis3 ax); cbn [on_axis];
      rewrite ?safeSetChannel_length; reflexivity.
Qed.

Lemma mapJoystick_frame_witness :
  (4 <= 4)%nat /\
  mapJoystick (joystick joystick_sample) boot_chans !! 4%nat = boot_chans !! 4%nat /\
  length (mapJoystick (joystick joystick_sample) boot_chans) = length boot_chans.
Proof.
  assert (Hj : (4 <= 4)%nat) by lia.
  exact (conj Hj (mapJoystick_frame (joystick joystick_sample) boot_chans 4 Hj)).
Defined.

(** ** The store: how writes compose *)

(** X6: a write that the guard accepts for its value replaces whatever
    an earlier write to the same channel did: the last in-range value
    wins. *)
Theorem safeSetChannel_overwrite (channel v1 v2 : Z) (chans : list Z) :
  1000 <= v2 <= 2000 ->
  safeSetChannel channel v2 (safeSetChannel channel v1 chans)
    = safeSetChannel channel v2 chans.
Proof.
  intros H2.
  destruct (channel_in_range_dec channel) as [Hc | Hc].
  - rewrite !(safeSetChannel_accept channel v2) by assumption.
    destruct (safeSetChannel_cases channel v1 chans) as [E | [_ E]]; rewrite E;
      [reflexivity | apply list_insert_insert_eq].
  - rewrite !safeSetChannel_reject by (left; exact Hc). reflexivity.
Qed.

Lemma safeSetChannel_overwrite_witness :
  1000 <= 1800 <= 2000 /\
  safeSetChannel 5 1800 (safeSetChannel 5 1700 boot_chans)
    = safeSetChannel 5 1800 boot_chans.
Proof.
  assert (H2 : 1000 <= 1800 <= 2000) by lia.
  exact (conj H2 (safeSetChannel_overwrite 5 1700 1800 boot_chans H2)).
Defined.

(** X7: writes to two different channels commute, accepted or not. *)
Theorem safeSetChannel_commute (i j v w : Z) (chans : list Z) :
  i <> j ->
  safeSetChannel i v (safeSetChannel j w chans)
    = safeSetChannel j w (safeSetChannel i v chans).
Proof.
  intros Hij. unfold safeSetChannel.
  destruct ((1 <=? i) && (i <=? Constants.CHANNEL_COUNT)
            && (Constants.CHANNEL_MIN <=? v) && (v <=? Constants.CHANNEL_MAX)) eqn:Gi;
  destruct ((1 <=? j) && (j <=? Constants.CHANNEL_COUNT)
            && (Constants.CHANNEL_MIN <=? w) && (w <=? Constants.CHANNEL_MAX)) eqn:Gj;
    try reflexivity.
  apply safeSetChannel_guard in Gi, Gj.
  apply list_insert_insert_ne. lia.
Qed.

Lemma safeSetChannel_commute_witness :
  1 <> 3 /\
  safeSetChannel 1 1200 (safeSetChannel 3 1800 boot_chans)
    = safeSetChannel 3 1800 (safeSetChannel 1 1200 boot_chans).
Proof.
  assert (Hij : 1 <> 3) by lia.
  exact (conj Hij (safeSetChannel_commute 1 3 1200 1800 boot_chans Hij)).
Defined.

(** ** Reading numbers *)

Lemma uint_value_acc u : forall p, uint_value u (Zpos p) = Zpos (Pos.of_uint_acc u p).
Proof.
  induction u as [| u IH | u IH | u IH | u IH | u IH | u IH | u IH | u IH | u IH | u IH];
    intros p; cbn [uint_value Pos.of_uint_acc]; [reflexivity | ..];
    match goal with
    | |- uint_value _ ?a = Zpos (Pos.of_uint_acc _ ?q) =>
        replace a with (Zpos q) by lia
    end; apply IH.
Qed.

Lemma uint_value_0 u : uint_value u 0 = Z.of_N (Pos.of_uint u).
Proof.
  induction u as [| u IH | u IH | u IH | u IH | u IH | u IH | u IH | u IH | u IH | u IH];
    cbn [uint_value Pos.of_uint]; [reflexivity | exact IH | ..];
    cbn [Z.mul Z.add Z.of_N]; apply uint_value_acc.
Qed.

Lemma read_digits_stop rest acc :
  digit_head rest = false -> read_digits rest acc = (acc, rest).
Proof.
  destruct rest as [| c r]; [reflexivity |].
  cbn [digit_head read_digits]. destruct (digit_of c); [discriminate | reflexivity].
Qed.

Ltac eval_digit :=
  match goal with
  | |- context [digit_of ?c] =>
      let v := eval vm_compute in (digit_of c) in change (digit_of c) with v
  end; cbv beta iota.

Lemma read_digits_uint u : forall rest acc,
  digit_head rest = false ->
  read_digits (NilEmpty.string_of_uint u ++ rest) (Some acc)
    = (Some (uint_value u acc), rest).
Proof.
  induction u as [| u IH | u IH | u IH | u IH | u IH | u IH | u IH | u IH | u IH | u IH];
    intros rest acc Hrest; cbn [NilEmpty.string_of_uint append uint_value];
    [apply read_digits_stop; exact Hrest | ..].
  all: cbn [read_digits]; eval_digit; apply IH; exact Hrest.
Qed.

Lemma read_digits_uint_first u rest :
  u <> Nil -> digit_head rest = false ->
  read_digits (NilEmpty.string_of_uint u ++ rest) None
    = (Some (uint_value u 0), rest).
Proof.
  intros Hu Hrest.
  destruct u; [congruence | ..];
    cbn [NilEmpty.string_of_uint append uint_value read_digits];
    eval_digit; apply read_digits_uint; exact Hrest.
Qed.

Lemma string_of_uint_chars u : all_chars number_char (NilEmpty.string_of_uint u) = true.
Proof. induction u; cbn [NilEmpty.string_of_uint all_chars]; auto. Qed.

Lemma print_int_chars z : all_chars number_char (print_int z) = true.
Proof.
  unfold print_int. destruct (Z.to_int z) as [u | u]; cbn [NilEmpty.string_of_int all_chars].
  - apply string_of_uint_chars.
  - rewrite string_of_uint_chars. reflexivity.
Qed.

Lemma read_signed_uint u rest :
  u <> Nil -> digit_head rest = false ->
  read_signed (NilEmpty.string_of_uint u ++ rest) = Some (uint_value u 0, rest).
Proof.
  intros Hu Hrest.
  pose proof (read_digits_uint_first u rest Hu Hrest) as H.
  destruct u; [congruence | ..]; unfold read_signed;
    cbn [NilEmpty.string_of_uint append] in *; cbv beta iota zeta;
    rewrite H; reflexivity.
Qed.

Lemma read_signed_print z rest :
  digit_head rest = false -> read_signed (print_int z ++ rest) = Some (z, rest).
Proof.
  intros Hrest. unfold print_int.
  destruct z as [| p | p]; cbn [Z.to_int NilEmpty.string_of_int].
  - exact (read_signed_uint (D0 Nil) rest ltac:(discriminate) Hrest).
  - rewrite read_signed_uint by (assumption || apply DecimalPos.Unsigned.to_uint_nonnil).
    rewrite uint_value_0, DecimalPos.Unsigned.of_to. reflexivity.
  - pose proof (read_digits_uint_first (Pos.to_uint p) rest
                  (DecimalPos.Unsigned.to_uint_nonnil p) Hrest) as H.
    unfold read_signed. cbn [append]. cbv beta iota zeta.
    rewrite H, uint_value_0, DecimalPos.Unsigned.of_to. reflexivity.
Qed.

Lemma skip_ws_print z rest : skip_ws (print_int z ++ rest) = print_int z ++ rest.
Proof.
  unfold print_int.
  destruct z as [| p | p]; cbn [Z.to_int NilEmpty.string_of_int]; try reflexivity.
  pose proof (DecimalPos.Unsigned.to_uint_nonnil p) as Hnn.
  destruct (Pos.to_uint p); [congruence | ..]; reflexivity.
Qed.

Lemma skip_ws_spaces ws : forall s,
  all_chars isspace ws = true -> skip_ws (ws ++ s) = skip_ws s.
Proof.
  induction ws as [| c ws IH]; intros s Hws; [reflexivity |].
  cbn [all_chars] in Hws. apply andb_true_iff in Hws as [Hc Hws].
  cbn [append skip_ws]. rewrite Hc. apply IH. exact Hws.
Qed.

Lemma stoi_print z rest :
  digit_head rest = false ->
  stoi (print_int z ++ rest)
    = if (- 2 ^ 31 <=? z) && (z <=? 2 ^ 31 - 1) then Some z else None.
Proof.
  intros Hrest. unfold stoi.
  rewrite skip_ws_print, read_signed_print by exact Hrest. reflexivity.
Qed.

(** [stoi] inverts decimal printing.  Applied to white space, the
    decimal text of [z] and anything that does not begin with a digit,
    it returns [z] when [z] fits an [int] and throws otherwise. *)
Theorem stoi_round_trip (ws : string) (z : Z) (rest : string) :
  all_chars isspace ws = true ->
  digit_head rest = false ->
  stoi (ws ++ print_int z ++ rest)
    = if (- 2 ^ 31 <=? z) && (z <=? 2 ^ 31 - 1) then Some z else None.
Proof.
  intros Hws Hrest.
  rewrite <- (stoi_print z rest Hrest). unfold stoi.
  rewrite skip_ws_spaces by exact Hws. reflexivity.
Qed.

Lemma stoi_round_trip_witness :
  all_chars isspace "  " = true /\ digit_head "us" = false /\
  stoi ("  " ++ print_int (-1700) ++ "us") = Some (-1700).
Proof.
  exact (conj eq_refl (conj eq_refl (stoi_round_trip "  " (-1700) "us" eq_refl eq_refl))).
Defined.

(** ** Well-formed command lines *)

Lemma number_char_not c ch :
  number_char ch = false -> number_char c = true -> Ascii.eqb c ch = false.
Proof.
  intros Hch Hc. destruct (Ascii.eqb c ch) eqn:E; [| reflexivity].
  apply Ascii.eqb_eq in E. congruence.
Qed.

Lemma find_char_append ch a : forall b,
  number_char ch = false -> all_chars number_char a = true ->
  find_char ch (a ++ String ch b) = Some (String.length a).
Proof.
  induction a as [| c a IH]; intros b Hch Ha; cbn [append find_char String.length].
  - rewrite Ascii.eqb_refl. reflexivity.
  - cbn [all_chars] in Ha. apply andb_true_iff in Ha as [Hc Ha].
    rewrite (number_char_not c ch Hch Hc), (IH b Hch Ha). reflexivity.
Qed.

Lemma substring_append_l a : forall b, substring 0 (String.length a) (a ++ b) = a.
Proof.
  induction a as [| c a IH]; intros b; cbn [append String.length substring].
  - destruct b; reflexivity.
  - rewrite IH. reflexivity.
Qed.

Lemma substring_all s : substring 0 (String.length s) s = s.
Proof.
  induction s as [| c s IH]; cbn [String.length substring]; [| rewrite IH]; reflexivity.
Qed.

Lemma substr_from_append a : forall c b,
  substr_from (String.length a + 1) (a ++ String c b) = b.
Proof.
  unfold substr_from.
  induction a as [| x a IH]; intros c b; cbn [append String.length].
  - cbn [Nat.add substring Nat.sub]. rewrite Nat.sub_0_r. apply substring_all.
  - cbn [Nat.add Nat.sub substring]. apply IH.
Qed.

Lemma string_app_empty s : s ++ "" = s.
Proof. induction s as [| c s IH]; cbn [append]; [| rewrite IH]; reflexivity. Qed.

Lemma string_app_assoc a : forall b c, (a ++ b) ++ c = a ++ b ++ c.
Proof.
  induction a as [| x a IH]; intros b c; cbn [append]; [| rewrite IH]; reflexivity.
Qed.

(** An index read as [int] and stored in an [unsigned int] passes the
    guard exactly when the [int] would. *)
Lemma safeSetChannel_uint32 i v chans :
  - 2 ^ 31 <= i < 2 ^ 31 ->
  safeSetChannel (to_uint32 i) v chans = safeSetChannel i v chans.
Proof.
  intros Hi. unfold to_uint32.
  destruct (Z_lt_le_dec i 0) as [Hneg | Hpos].
  - assert (Hm : i mod 2 ^ 32 = i + 2 ^ 32)
      by (symmetry; apply Z.mod_unique with (q := -1); lia).
    rewrite Hm, !safeSetChannel_reject; [reflexivity | left; lia | left; lia].
  - rewrite Z.mod_small by lia. reflexivity.
Qed.

Lemma in_int32_dec z :
  (- 2 ^ 31 <=? z) && (z <=? 2 ^ 31 - 1) = true <-> - 2 ^ 31 <= z < 2 ^ 31.
Proof. rewrite andb_true_iff, !Z.leb_le. lia. Qed.

(** One pair of a [setChannels] line is one call of [safeSetChannel]. *)
Lemma setChannels_pair_token i v chans :
  setChannels_pair (pair_token (i, v)) chans = safeSetChannel i v chans.
Proof.
  unfold setChannels_pair, pair_token. cbn [fst snd].
  rewrite find_char_append by (reflexivity || apply print_int_chars).
  rewrite substring_append_l, substr_from_append.
  rewrite <- (string_app_empty (print_int i)), <- (string_app_empty (print_int v)).
  rewrite !stoi_print by reflexivity.
  destruct ((- 2 ^ 31 <=? i) && (i <=? 2 ^ 31 - 1)) eqn:Ei.
  - apply in_int32_dec in Ei.
    destruct ((- 2 ^ 31 <=? v) && (v <=? 2 ^ 31 - 1)) eqn:Ev.
    + apply safeSetChannel_uint32. exact Ei.
    + apply not_true_iff_false in Ev. rewrite in_int32_dec in Ev.
      rewrite safeSetChannel_reject; [reflexivity |].
      right. unfold in_range, Constants.CHANNEL_MIN, Constants.CHANNEL_MAX. lia.
  - apply not_true_iff_false in Ei. rewrite in_int32_dec in Ei.
    rewrite safeSetChannel_reject; [reflexivity |]. left. lia.
Qed.

Lemma tokens_word w : forall s,
  w <> "" -> no_space w = true -> space_head s = true ->
  tokens (w ++ s) = w :: tokens s.
Proof.
  induction w as [| c w IH]; intros s Hne Hns Hs; [congruence |].
  cbn [no_space] in Hns. apply andb_true_iff in Hns as [Hc Hns].
  apply negb_true_iff in Hc.
  cbn [append tokens]. rewrite Hc.
  destruct w as [| c' w'].
  - cbn [append]. destruct s as [| c' s']; [reflexivity |].
    cbn [space_head] in Hs. rewrite Hs. reflexivity.
  - specialize (IH s ltac:(discriminate) Hns Hs).
    cbn [append] in IH |- *.
    cbn [no_space] in Hns. apply andb_true_iff in Hns as [Hc' _].
    apply negb_true_iff in Hc'. rewrite Hc', IH. reflexivity.
Qed.

Lemma number_char_no_space c : number_char c = true -> isspace c = false.
Proof.
  destruct c as [[|] [|] [|] [|] [|] [|] [|] [|]]; vm_compute;
    intros; congruence.
Qed.

Lemma all_number_no_space s : all_chars number_char s = true -> no_space s = true.
Proof.
  induction s as [| c s IH]; [reflexivity |].
  cbn [all_chars no_space]. intros H. apply andb_true_iff in H as [Hc Hs].
  rewrite (number_char_no_space c Hc), (IH Hs). reflexivity.
Qed.

Lemma no_space_append a b :
  no_space a = true -> no_space b = true -> no_space (a ++ b) = true.
Proof.
  induction a as [| c a IH]; cbn [append no_space]; [auto |].
  intros Ha Hb. apply andb_true_iff in Ha as [Hc Ha].
  rewrite Hc, (IH Ha Hb). reflexivity.
Qed.

Lemma pair_token_word p : pair_token p <> "" /\ no_space (pair_token p) = true.
Proof.
  unfold pair_token. split.
  - destruct (print_int (fst p)); discriminate.
  - apply no_space_append; [apply all_number_no_space, print_int_chars |].
    cbn [no_space]. rewrite all_number_no_space by apply print_int_chars. reflexivity.
Qed.

Lemma tokens_pairs_text ps : tokens (pairs_text ps) = map pair_token ps.
Proof.
  induction ps as [| p rest IH]; [reflexivity |].
  cbn [pairs_text map]. cbn [tokens]. change (isspace " ") with true. cbv iota.
  destruct (pair_token_word p) as [Hne Hns].
  rewrite tokens_word; [rewrite IH; reflexivity | assumption | assumption |].
  destruct rest; reflexivity.
Qed.

Lemma setChannels_loop_pairs ps : forall chans,
  fold_left (fun st tok => setChannels_pair tok st) (map pair_token ps) chans
    = apply_pairs ps chans.
Proof.
  unfold apply_pairs.
  induction ps as [| [i v] rest IH]; intros chans; [reflexivity |].
  cbn [map fold_left fst snd]. rewrite setChannels_pair_token. apply IH.
Qed.

(** X8: a [setChannels] line with any number of pairs [index=value]
    written in decimal is answered [true] and performs one
    [safeSetChannel] call per pair, in the order of the line; pairs the
    guard rejects (also indices or values that do not fit an [int])
    change nothing and do not stop the pairs after them. *)
Theorem parse_setChannels_pairs (ps : list (Z * Z)) (chans : list Z) :
  parseCommand ("setChannels" ++ pairs_text ps) chans = (apply_pairs ps chans, true).
Proof.
  assert (Htok : tokens ("setChannels" ++ pairs_text ps)
                 = "setChannels" :: map pair_token ps).
  { rewrite tokens_word; [rewrite tokens_pairs_text; reflexivity
                         | discriminate | reflexivity |].
    destruct ps; reflexivity. }
  assert (Hstart : startsWith ("setChannels" ++ pairs_text ps) "setChannels" = true).
  { rewrite startsWith_is_prefix. reflexivity. }
  unfold parseCommand. rewrite Hstart, Htok.
  cbn [append]. cbv iota. change (Ascii.eqb "s" "#") with false. cbv iota.
  cbn [tail]. rewrite setChannels_loop_pairs. reflexivity.
Qed.

Example parse_setChannels_pairs_sample :
  "setChannels" ++ pairs_text [(1, 1200); (99, 1); (-3, 1500); (3, 1800)]
    = "setChannels 1=1200 99=1 -3=1500 3=1800".
Proof. reflexivity. Qed.

(** X9: a [setChannel] line with index and value written in decimal
    (both fitting an [int]) is answered [true] and performs the one
    call [safeSetChannel index value]; what follows the value on the
    line is not looked at. *)
Theorem parse_setChannel_numbers (i v : Z) (rest : string) (chans : list Z) :
  - 2 ^ 31 <= i < 2 ^ 31 -> - 2 ^ 31 <= v < 2 ^ 31 ->
  digit_head rest = false ->
  parseCommand ("setChannel " ++ print_int i ++ " " ++ print_int v ++ rest) chans
    = (safeSetChannel i v chans, true).
Proof.
  intros Hi Hv Hrest.
  assert (Hscan : sscanf_setChannel
            ("setChannel " ++ print_int i ++ " " ++ print_int v ++ rest)
          = Some (to_uint32 i, to_int32 v)).
  { unfold sscanf_setChannel. cbn [append match_literal].
    repeat (rewrite Ascii.eqb_refl; cbv iota).
    cbn [skip_ws]. change (isspace " ") with true. cbv iota.
    rewrite skip_ws_print, read_signed_print by reflexivity.
    cbn [skip_ws]. change (isspace " ") with true. cbv iota.
    rewrite skip_ws_print, read_signed_print by exact Hrest. reflexivity. }
  unfold parseCommand. rewrite Hscan.
  rewrite !startsWith_is_prefix.
  cbn [append is_prefix]. cbv iota.
  change (Ascii.eqb "s" "#") with false.
  repeat (rewrite Ascii.eqb_refl; cbn [andb]).
  change (Ascii.eqb " " "s") with false. cbv iota. cbn [andb]. cbv iota.
  rewrite safeSetChannel_uint32, to_int32_small by lia. reflexivity.
Qed.

Lemma parse_setChannel_numbers_witness :
  - 2 ^ 31 <= 5 < 2 ^ 31 /\ - 2 ^ 31 <= 1700 < 2 ^ 31 /\
  digit_head " # roll" = false /\
  parseCommand ("setChannel " ++ print_int 5 ++ " " ++ print_int 1700 ++ " # roll")
    boot_chans = (safeSetChannel 5 1700 boot_chans, true).
Proof.
  assert (Hi : - 2 ^ 31 <= 5 < 2 ^ 31) by lia.
  assert (Hv : - 2 ^ 31 <= 1700 < 2 ^ 31) by lia.
  exact (conj Hi (conj Hv (conj eq_refl
           (parse_setChannel_numbers 5 1700 " # roll" boot_chans Hi Hv eq_refl)))).
Defined.

(** ** Lines that are not commands *)

Lemma recognized_first_char line :
  recognized line = true -> exists r, line = String "s" r.
Proof.
  rewrite recognized_iff, !startsWith_is_prefix.
  intros [H | [H | H]].
  - destruct line as [| b r]; [discriminate |].
    cbn [is_prefix] in H. apply andb_true_iff in H as [Hb _].
    apply Ascii.eqb_eq in Hb. subst b. eauto.
  - subst line. eauto.
  - destruct line as [| b r]; [discriminate |].
    cbn [is_prefix] in H. apply andb_true_iff in H as [Hb _].
    apply Ascii.eqb_eq in Hb. subst b. eauto.
Qed.

(** X10: the parser does not skip leading white space: a line that
    begins with a white-space character is answered [false] and changes
    nothing, whatever follows. *)
Theorem leading_space_unrecognized (c : ascii) (rest : string) (chans : list Z) :
  isspace c = true -> parseCommand (String c rest) chans = (chans, false).
Proof.
  intros Hc. apply parseCommand_unrecognized.
  apply not_true_iff_false. intros Hrec.
  apply recognized_first_char in Hrec as [r Hr].
  injection Hr as -> _. discriminate.
Qed.

Lemma leading_space_unrecognized_witness :
  isspace " " = true /\
  parseCommand (String " " "setChannel 5 1700") boot_chans = (boot_chans, false).
Proof.
  exact (conj eq_refl
           (leading_space_unrecognized " " "setChannel 5 1700" boot_chans eq_refl)).
Defined.

(** X11: [sendChannels] is compared as a whole line: followed by
    anything at all, a blank or a carriage return included, the line is
    answered [false]. *)
Theorem sendChannels_exact (x : string) (chans : list Z) :
  x <> "" -> parseCommand ("sendChannels" ++ x) chans = (chans, false).
Proof.
  intros Hx. apply parseCommand_unrecognized.
  apply not_true_iff_false. rewrite recognized_iff, !startsWith_is_prefix.
  intros [H | [H | H]]; try discriminate.
  destruct x; [congruence | discriminate].
Qed.

Lemma sendChannels_exact_witness :
  String "013" "" <> "" /\
  parseCommand ("sendChannels" ++ String "013" "") boot_chans = (boot_chans, false).
Proof.
  assert (Hx : String "013" "" <> "") by discriminate.
  exact (conj Hx (sendChannels_exact (String "013" "") boot_chans Hx)).
Defined.

(** X12: [parseCommand] answers [true] exactly for the lines that begin
    with "setChannel" or with "setMode" and for the line "sendChannels";
    the answer does not depend on the store. *)
Theorem parseCommand_flag (line : string) (chans : list Z) :
  snd (parseCommand line chans) = true <->
  startsWith line "setChannel" = true \/ line = "sendChannels"
  \/ startsWith line "setMode" = true.
Proof. rewrite parseCommand_snd. apply recognized_iff. Qed.

(** ** The command file *)

Lemma no_newline_cons c l :
  no_newline (String c l) = true -> Ascii.eqb c "010" = false /\ no_newline l = true.
Proof.
  unfold no_newline. cbn [find_char].
  destruct (Ascii.eqb c "010"); [discriminate |].
  destruct (find_char "010" l); [discriminate | auto].
Qed.

Lemma getlines_line l : forall rest,
  no_newline l = true -> getlines (l ++ String "010" rest) = l :: getlines rest.
Proof.
  induction l as [| c l IH]; intros rest Hl.
  - reflexivity.
  - apply no_newline_cons in Hl as [Hc Hl].
    cbn [append getlines]. rewrite Hc, (IH rest Hl). reflexivity.
Qed.

Lemma getlines_last l :
  l <> "" -> no_newline l = true -> getlines l = [l].
Proof.
  induction l as [| c l IH]; intros Hne Hl; [congruence |].
  apply no_newline_cons in Hl as [Hc Hl].
  cbn [getlines]. rewrite Hc.
  destruct l as [| c' l']; [reflexivity |].
  rewrite (IH ltac:(discriminate) Hl). reflexivity.
Qed.

Lemma getlines_unlines_eq ls :
  forallb no_newline ls = true -> getlines (unlines ls) = ls.
Proof.
  induction ls as [| l0 ls IH]; intros Hall; [reflexivity |].
  cbn [forallb] in Hall. apply andb_true_iff in Hall as [H0 Hall].
  cbn [unlines]. rewrite getlines_line, (IH Hall) by exact H0. reflexivity.
Qed.

(** Reading a file line by line gives back the lines it was
    written from: for lines free of newline characters, each closed by
    a newline, [getline] yields exactly these lines (empty ones
    included), and a last non-empty line without closing newline is
    read as well. *)
Theorem getlines_unlines (ls : list string) :
  forallb no_newline ls = true ->
  getlines (unlines ls) = ls /\
  forall l, l <> "" -> no_newline l = true ->
    getlines (unlines ls ++ l) = (ls ++ [l])%list.
Proof.
  induction ls as [| l0 ls IH]; intros Hall.
  - split; [reflexivity |]. intros l Hne Hl. apply getlines_last; assumption.
  - cbn [forallb] in Hall. apply andb_true_iff in Hall as [H0 Hall].
    destruct (IH Hall) as [IH1 IH2]. cbn [unlines]. split.
    + rewrite getlines_line, IH1 by exact H0. reflexivity.
    + intros l Hne Hl.
      rewrite string_app_assoc. cbn [append].
      rewrite getlines_line, (IH2 l Hne Hl) by exact H0. reflexivity.
Qed.

Lemma getlines_unlines_witness :
  forallb no_newline ["sendChannels"; ""; "# x"] = true /\
  getlines (unlines ["sendChannels"; ""; "# x"]) = ["sendChannels"; ""; "# x"] /\
  getlines (unlines ["sendChannels"; ""; "# x"] ++ "setMode a")
    = ["sendChannels"; ""; "# x"; "setMode a"].
Proof.
  pose proof (getlines_unlines ["sendChannels"; ""; "# x"] eq_refl) as [H1 H2].
  refine (conj eq_refl (conj H1 _)).
  apply H2; [discriminate | reflexivity].
Defined.

Lemma drain_lines_fold lines : forall chans need,
  fold_left command_step lines (chans, need)
    = (apply_lines lines chans, need || existsb recognized lines).
Proof.
  unfold apply_lines.
  induction lines as [| line rest IH]; intros chans need.
  - cbn. rewrite orb_false_r. reflexivity.
  - cbn [fold_left existsb]. unfold command_step at 2.
    pose proof (parseCommand_snd line chans) as Hs.
    destruct (parseCommand line chans) as [chans' ok]. cbn [fst snd] in *. subst ok.
    rewrite IH. destruct (recognized line), need; reflexivity.
Qed.

(** X13: draining a command file applies the commands of its lines in
    file order, and leaves the expedite flag raised exactly when it was
    raised before or one of the lines is a recognized command. *)
Theorem drain_file_in_order (ls : list string) (chans : list Z) (need : bool) :
  forallb no_newline ls = true ->
  drain_commands (Some (unlines ls)) (chans, need)
    = (apply_lines ls chans, need || existsb recognized ls).
Proof.
  intros Hls. unfold drain_commands.
  rewrite getlines_unlines_eq by exact Hls. apply drain_lines_fold.
Qed.

Lemma drain_file_in_order_witness :
  forallb no_newline sample_lines = true /\
  drain_commands (Some (unlines sample_lines)) (boot_chans, false)
    = (<[5%nat := 1100]> (<[4%nat := 1800]> boot_chans), true).
Proof.
  refine (conj eq_refl _).
  rewrite (drain_file_in_order sample_lines boot_chans false eq_refl).
  vm_compute. reflexivity.
Defined.

(** ** The scheduler: when it emits *)

Lemma drain_commands_flag inp chans need :
  snd (drain_commands (cmdFile inp) (chans, need)) = need || has_command inp.
Proof.
  unfold drain_commands, has_command.
  destruct (cmdFile inp) as [content |].
  - rewrite drain_lines_fold. reflexivity.
  - cbn. rewrite orb_false_r. reflexivity.
Qed.

(** The iteration as compiled with [USE_CRSF_SEND], in one equation. *)
Lemma tick_unfold cfg inp s :
  USE_CRSF_SEND cfg = true ->
  tick cfg inp s =
    let ch := fst (drain_commands (cmdFile inp) (currentChannels s, needToSendChannels s)) in
    if (10 <=? since_last inp s)
       || ((needToSendChannels s || has_command inp) && (2 <=? since_last inp s))
    then (sent_at (currentMillis inp) ch, Some ch)
    else ({| lastSendMs := lastSendMs s;
             needToSendChannels := needToSendChannels s || has_command inp;
             currentChannels := ch |}, None).
Proof.
  intros Hsend. unfold tick, tick_in_mode, since_last.
  pose proof (drain_commands_flag inp (currentChannels s) (needToSendChannels s)) as Hflag.
  destruct (drain_commands _ _) as [ch1 need1]. cbn [fst snd] in *. subst need1.
  rewrite Hsend, getWorkMode_not_joystick. cbn [andb].
  unfold Constants.CRSF_SEND_PERIOD_MS.
  destruct (10 <=? _); [reflexivity |]. cbn [orb].
  destruct (needToSendChannels s || has_command inp); [| reflexivity].
  cbn [andb]. destruct (2 <=? _); reflexivity.
Qed.

Lemma tick_no_send cfg inp s :
  USE_CRSF_SEND cfg = false ->
  tick cfg inp s =
    ({| lastSendMs := lastSendMs s;
        needToSendChannels := needToSendChannels s || has_command inp;
        currentChannels :=
          fst (drain_commands (cmdFile inp) (currentChannels s, needToSendChannels s)) |},
     None).
Proof.
  intros Hsend. unfold tick, tick_in_mode.
  pose proof (drain_commands_flag inp (currentChannels s) (needToSendChannels s)) as Hflag.
  destruct (drain_commands _ _) as [ch1 need1]. cbn [fst snd] in *. subst need1.
  rewrite Hsend. reflexivity.
Qed.

(** X14: an iteration of the loop emits exactly when sending is
    compiled in and either 10 ms have passed since the last emission,
    or 2 ms have passed and an expedite request is pending or a
    recognized command was read in this iteration. *)
Theorem tick_emits_iff (cfg : LoopConfig) (inp : TickInput) (s : MainState) :
  is_Some (snd (tick cfg inp s)) <->
  USE_CRSF_SEND cfg = true /\
  (10 <= since_last inp s \/
   (2 <= since_last inp s /\
    (needToSendChannels s = true \/ has_command inp = true))).
Proof.
  destruct (USE_CRSF_SEND cfg) eqn:Hsend.
  - rewrite (tick_unfold cfg inp s Hsend). cbv zeta.
    destruct (_ || _) eqn:E; cbn [snd].
    + split; [intros _ | eauto].
      split; [reflexivity |].
      apply orb_true_iff in E as [E | E].
      * left. apply Z.leb_le. exact E.
      * right. apply andb_true_iff in E as [E1 E2].
        apply orb_true_iff in E1. apply Z.leb_le in E2. auto.
    + split; [intros [e He]; discriminate |].
      intros [_ H]. exfalso.
      apply orb_false_iff in E as [E1 E2]. apply Z.leb_gt in E1.
      destruct H as [H | [H2 Hf]]; [lia |].
      apply andb_false_iff in E2 as [E2 | E2].
      * apply orb_false_iff in E2 as [Ea Eb]. destruct Hf; congruence.
      * apply Z.leb_gt in E2. lia.
  - rewrite (tick_no_send cfg inp s Hsend). cbn [snd].
    split; [intros [e He]; discriminate | intros [H _]; discriminate].
Qed.

(** X15: in any work mode, an iteration that emits does so at least
    2 ms after the last emission, emits the store as the iteration left
    it, records its own time as the time of the last emission and
    clears the expedite flag. *)
Theorem emission_effect (mode : string) (cfg : LoopConfig) (inp : TickInput)
    (s : MainState) (e : Emission) :
  snd (tick_in_mode mode cfg inp s) = Some e ->
  2 <= since_last inp s /\
  e = currentChannels (fst (tick_in_mode mode cfg inp s)) /\
  lastSendMs (fst (tick_in_mode mode cfg inp s)) = currentMillis inp /\
  needToSendChannels (fst (tick_in_mode mode cfg inp s)) = false.
Proof.
  unfold tick_in_mode, since_last.
  destruct (drain_commands _ _) as [ch1 need1].
  destruct (USE_CRSF_SEND cfg); [| discriminate].
  destruct (if String.eqb mode "joystick" && joystickAvailable cfg
            then _ else _) as [ch2 need2].
  unfold Constants.CRSF_SEND_PERIOD_MS.
  destruct (10 <=? _) eqn:E10.
  - apply Z.leb_le in E10. cbn [fst snd]. intros [= <-].
    repeat split; try reflexivity. lia.
  - destruct need2; [| discriminate].
    destruct (2 <=? _) eqn:E2; [| discriminate].
    apply Z.leb_le in E2. cbn [fst snd]. intros [= <-].
    repeat split; try reflexivity. lia.
Qed.

Lemma emission_effect_witness :
  snd (tick_in_mode "joystick" cfg_joystick joystick_sample boot_state)
    = Some (currentChannels
              (fst (tick_in_mode "joystick" cfg_joystick joystick_sample boot_state))) /\
  2 <= since_last joystick_sample boot_state /\
  lastSendMs (fst (tick_in_mode "joystick" cfg_joystick joystick_sample boot_state)) = 5000.
Proof.
  assert (H : snd (tick_in_mode "joystick" cfg_joystick joystick_sample boot_state)
              = Some (currentChannels
                   (fst (tick_in_mode "joystick" cfg_joystick joystick_sample boot_state))))
    by reflexivity.
  pose proof (emission_effect "joystick" cfg_joystick joystick_sample boot_state _ H)
    as (Hgap & _ & Hlast & _).
  exact (conj H (conj Hgap Hlast)).
Defined.

(** X16: an iteration that does not emit leaves the time of the last
    emission as it was and keeps the expedite request: the flag is
    raised afterwards exactly when it was raised before or a recognized
    command was read. *)
Theorem tick_keeps_request (cfg : LoopConfig) (inp : TickInput) (s : MainState) :
  snd (tick cfg inp s) = None ->
  lastSendMs (fst (tick cfg inp s)) = lastSendMs s /\
  needToSendChannels (fst (tick cfg inp s)) = needToSendChannels s || has_command inp.
Proof.
  destruct (USE_CRSF_SEND cfg) eqn:Hsend.
  - rewrite (tick_unfold cfg inp s Hsend). cbv zeta.
    destruct (_ || _); cbn [fst snd]; [discriminate | auto].
  - rewrite (tick_no_send cfg inp s Hsend). cbn [fst snd]. auto.
Qed.

Lemma tick_keeps_request_witness :
  snd (tick cfg_send (command_at 1001 "sendChannels") (sent_at 1000 boot_chans)) = None /\
  lastSendMs (fst (tick cfg_send (command_at 1001 "sendChannels")
                     (sent_at 1000 boot_chans))) = 1000 /\
  needToSendChannels (fst (tick cfg_send (command_at 1001 "sendChannels")
                             (sent_at 1000 boot_chans))) = true.
Proof.
  exact (conj eq_refl
           (tick_keeps_request cfg_send (command_at 1001 "sendChannels")
              (sent_at 1000 boot_chans) eq_refl)).
Defined.

Lemma tick_emits_store cfg inp s e :
  snd (tick cfg inp s) = Some e -> e = currentChannels (fst (tick cfg inp s)).
Proof.
  unfold tick, tick_in_mode.
  destruct (drain_commands _ _) as [ch1 need1].
  destruct (USE_CRSF_SEND cfg); [| discriminate].
  destruct (if String.eqb getWorkMode "joystick" && joystickAvailable cfg
            then _ else _) as [ch2 need2].
  destruct (_ <=? _); [cbn; congruence |].
  destruct need2; [| discriminate].
  destruct (_ <=? _); [cbn; congruence | discriminate].
Qed.

(** X17: started on a store of 16 in-range values, any sequence of
    iterations emits only frames of 16 values, each in [1000,2000], and
    ends on such a store. *)
Theorem run_emissions_valid (cfg : LoopConfig) (ins : list TickInput) (s : MainState) :
  valid_store (currentChannels s) ->
  valid_store (currentChannels (fst (run cfg ins s))) /\
  Forall (fun o => forall e, o = Some e ->
            length e = 16%nat /\ Forall (fun v => 1000 <= v <= 2000) e)
         (snd (run cfg ins s)).
Proof.
  revert s. induction ins as [| inp rest IH]; intros s Hvalid; cbn [run].
  - split; [exact Hvalid | constructor].
  - pose proof (tick_in_mode_valid getWorkMode cfg inp s Hvalid) as Hv1.
    pose proof (tick_emits_store cfg inp s) as Heff.
    fold (tick cfg inp s) in Hv1.
    destruct (tick cfg inp s) as [s1 o]. cbn [fst snd] in *.
    destruct (IH s1 Hv1) as [IHv IHe].
    destruct (run cfg rest s1) as [s2 es]. cbn [fst snd] in *.
    split; [exact IHv |]. constructor; [| exact IHe].
    intros e ->. rewrite (Heff e eq_refl). exact Hv1.
Qed.

Lemma run_emissions_valid_witness :
  valid_store (currentChannels boot_state) /\
  Forall (fun o => forall e, o = Some e ->
            length e = 16%nat /\ Forall (fun v => 1000 <= v <= 2000) e)
         (snd (run cfg_send
                 [idle_at 1000; command_at 1003 "setChannels 2=1100 9=2500"] boot_state)).
Proof.
  exact (conj boot_chans_valid
           (proj2 (run_emissions_valid cfg_send
                     [idle_at 1000; command_at 1003 "setChannels 2=1100 9=2500"]
                     boot_state boot_chans_valid))).
Defined.

Lemma tick_strip_joystick cfg inp s : tick cfg inp s = tick cfg (strip_joystick inp) s.
Proof.
  unfold tick, tick_in_mode. rewrite getWorkMode_not_joystick. reflexivity.
Qed.

(** X18: in the program as compiled ([getWorkMode] returns "manual")
    the axis samples have no effect: a run of the loop yields the same
    states and the same emissions when every sample is taken away. *)
Theorem run_ignores_joystick (cfg : LoopConfig) (ins : list TickInput) (s : MainState) :
  run cfg ins s = run cfg (map strip_joystick ins) s.
Proof.
  revert s. induction ins as [| inp rest IH]; intros s; [reflexivity |].
  cbn [map run]. rewrite <- tick_strip_joystick.
  destruct (tick cfg inp s) as [s1 e]. rewrite IH. reflexivity.
Qed.

(** X19: a command read less than 2 ms after an emission is not sent in
    that iteration and is not lost: the next iteration that runs at
    least 2 ms after that emission sends the store, with the commands
    of both iterations applied. *)
Theorem deferred_command_sent (cfg : LoopConfig) (i1 i2 : TickInput) (s : MainState) :
  USE_CRSF_SEND cfg = true ->
  has_command i1 = true ->
  since_last i1 s < 2 ->
  2 <= since_last i2 s ->
  snd (run cfg [i1; i2] s)
    = [None; Some (currentChannels (fst (run cfg [i1; i2] s)))] /\
  currentChannels (fst (run cfg [i1; i2] s))
    = fst (drain_commands (cmdFile i2)
             (fst (drain_commands (cmdFile i1) (currentChannels s, needToSendChannels s)),
              true)) /\
  lastSendMs (fst (run cfg [i1; i2] s)) = currentMillis i2.
Proof.
  intros Hsend Hcmd H1 H2. cbn [run].
  rewrite (tick_unfold cfg i1 s Hsend). cbv zeta.
  destruct (10 <=? since_last i1 s) eqn:E10; [apply Z.leb_le in E10; lia |].
  destruct (2 <=? since_last i1 s) eqn:E2; [apply Z.leb_le in E2; lia |].
  rewrite andb_false_r. cbn [orb].
  rewrite tick_unfold by exact Hsend. cbv zeta.
  unfold since_last in *. cbn [lastSendMs needToSendChannels currentChannels].
  rewrite Hcmd, orb_true_r. cbn [orb andb].
  destruct (2 <=? to_uint32 (currentMillis i2 - lastSendMs s)) eqn:E2';
    [| apply Z.leb_gt in E2'; lia].
  rewrite orb_true_r. cbn. auto.
Qed.

Lemma deferred_command_sent_witness :
  USE_CRSF_SEND cfg_send = true /\
  has_command (command_at 1001 "setChannel 5 1700") = true /\
  since_last (command_at 1001 "setChannel 5 1700") (sent_at 1000 boot_chans) < 2 /\
  2 <= since_last (idle_at 1002) (sent_at 1000 boot_chans) /\
  snd (run cfg_send [command_at 1001 "setChannel 5 1700"; idle_at 1002]
         (sent_at 1000 boot_chans))
    = [None; Some (<[4%nat := 1700]> boot_chans)].
Proof.
  assert (H1 : since_last (command_at 1001 "setChannel 5 1700") (sent_at 1000 boot_chans) < 2)
    by (vm_compute; reflexivity).
  assert (H2 : 2 <= since_last (idle_at 1002) (sent_at 1000 boot_chans))
    by (vm_compute; discriminate).
  pose proof (deferred_command_sent cfg_send (command_at 1001 "setChannel 5 1700")
                (idle_at 1002) (sent_at 1000 boot_chans) eq_refl eq_refl H1 H2)
    as (Htrace & Hstore & _).
  refine (conj eq_refl (conj eq_refl (conj H1 (conj H2 _)))).
  rewrite Htrace, Hstore. vm_compute. reflexivity.
Defined.

(** ** The telemetry worker: freshness and rate *)

(** X20: in a cycle with a GPS fix every field of the record is
    assigned, so the record does not depend on what the previous cycle
    (or the uninitialised first value) left in it. *)
Theorem fill_fresh_with_fix (now_ms : Z) (crsf : Telemetry.CrsfReadings)
    (g : Telemetry.crsf_sensor_gps_t) (sh1 sh2 : Telemetry.SharedTelemetryData) :
  Telemetry.getGpsSensor crsf = Some g ->
  Telemetry.fill now_ms crsf sh1 = Telemetry.fill now_ms crsf sh2.
Proof.
  intros Hg. unfold Telemetry.fill, Telemetry.gps_fields. rewrite Hg. reflexivity.
Qed.

Lemma fill_fresh_with_fix_witness :
  Telemetry.fill 45 readings_with_gps previous_record
    = Telemetry.fill 45 readings_with_gps
        (Telemetry.fill 20 readings_no_gps previous_record).
Proof.
  exact (fill_fresh_with_fix 45 readings_with_gps _ previous_record
           (Telemetry.fill 20 readings_no_gps previous_record) eq_refl).
Defined.


(** X21: two cycles of the worker that follow each other are at least
    20 ms apart, whatever happens in between being sleeps. *)
Theorem telemetry_rate_limit (now1 now2 : Z) (c1 c2 : Telemetry.CrsfReadings)
    (f1 f2 : bool) (w w1 w2 : Telemetry.WorkerState)
    (p1 p2 : option Telemetry.SharedTelemetryData) :
  Telemetry.iteration now1 c1 f1 w = (w1, Telemetry.Cycle p1) ->
  Telemetry.iteration now2 c2 f2 w1 = (w2, Telemetry.Cycle p2) ->
  20 <= Telemetry.to_ms (now2 - now1).
Proof.
  unfold Telemetry.iteration, Constants.TELEMETRY_UPDATE_MS.
  destruct (Telemetry.to_ms (now1 - Telemetry.lastUpdate w) <? 20); [discriminate |].
  intros [= <- _].
  cbn [Telemetry.lastUpdate].
  destruct (Telemetry.to_ms (now2 - now1) <? 20) eqn:E; [discriminate |].
  intros _. apply Z.ltb_ge in E. exact E.
Qed.


Lemma telemetry_rate_limit_witness :
  Telemetry.iteration 45000000 readings_no_gps true
    {| Telemetry.lastUpdate := 20000000; Telemetry.shared := previous_record |}
    = ({| Telemetry.lastUpdate := 45000000;
          Telemetry.shared := Telemetry.fill 45 readings_no_gps previous_record |},
       Telemetry.Cycle (Some (Telemetry.fill 45 readings_no_gps previous_record))) /\
  Telemetry.iteration 70000000 readings_with_gps false
    {| Telemetry.lastUpdate := 45000000;
       Telemetry.shared := Telemetry.fill 45 readings_no_gps previous_record |}
    = ({| Telemetry.lastUpdate := 70000000;
          Telemetry.shared :=
            Telemetry.fill 70 readings_with_gps
              (Telemetry.fill 45 readings_no_gps previous_record) |},
       Telemetry.Cycle None) /\
  20 <= Telemetry.to_ms (70000000 - 45000000).
Proof.
  assert (H1 : Telemetry.iteration 45000000 readings_no_gps true
    {| Telemetry.lastUpdate := 20000000; Telemetry.shared := previous_record |}
    = ({| Telemetry.lastUpdate := 45000000;
          Telemetry.shared := Telemetry.fill 45 readings_no_gps previous_record |},
       Telemetry.Cycle (Some (Telemetry.fill 45 readings_no_gps previous_record))))
    by reflexivity.
  assert (H2 : Telemetry.iteration 70000000 readings_with_gps false
    {| Telemetry.lastUpdate := 45000000;
       Telemetry.shared := Telemetry.fill 45 readings_no_gps previous_record |}
    = ({| Telemetry.lastUpdate := 70000000;
          Telemetry.shared :=
            Telemetry.fill 70 readings_with_gps
              (Telemetry.fill 45 readings_no_gps previous_record) |},
       Telemetry.Cycle None))
    by reflexivity.
  exact (conj H1 (conj H2
           (telemetry_rate_limit 45000000 70000000 _ _ _ _ _ _ _ _ _ H1 H2))).
Defined.

